(** * NL-SQL-System: the SQL safety gate and the query pipeline

    A shallow embedding of [nl_to_sql_engine.py]: the validator
    ([SQLValidator.validate_query], [SQLValidator.sanitize_limit]), the
    translator's handling of the service reply
    ([NLToSQLConverter.generate_sql]), the executor
    ([DatabaseExecutor.execute_query]), the answer generator
    ([AnswerGenerator.generate_answer]) and the orchestrator
    ([ClearQuoteNLSQL.process_query]).

    Conventions of the embedding.
    - Python [str] is [string], read as text of ASCII characters (code
      points below 128, [isascii]).  On such text [upper], [is_space] and the
      case folding of [atom_match] are what [str.upper], [str.isspace] and
      [re.IGNORECASE] compute; characters from 128 on are not modelled.  A
      statement that holds of the source on such text only names the text
      through [isascii].
    - Python [int] is [Z]; a JSON or Python float is carried as a rational
      (no NaN, no infinities).
    - A Python dict that the code reads and writes by key is a
      [gmap string value]; a JSON object and a row of the store keep their
      pairs in order.
    - Calls that leave the process (the chat-completion service, the
      PostgreSQL driver) take their outcome from an environment record.  A
      raised exception is an outcome of its own; it is threaded through a
      monad that also carries the state of the outside: the number of open
      store connections, and the trace of what the process did.
    - A store connection is closed by [conn.close()], and by the driver when
      the connection object is deallocated (psycopg2 documents [close] as
      closing the connection now rather than when the object is deleted). *)

From Stdlib Require Import ZArith QArith Ascii String DecimalString Permutation Lia.
From stdpp Require Import gmap strings list.

Set Warnings "-register-all".
Open Scope string_scope.

(* [s1 ++ s2] on strings unfolds under [simpl], as it does on lists. *)
Arguments String.append !s1 s2 : simpl nomatch.

(** ** Text primitives (Python [str] methods used by the source) *)

Definition is_lower (c : ascii) : bool :=
  ((97 <=? N_of_ascii c) && (N_of_ascii c <=? 122))%N.

(** [str.upper], one ASCII character. *)
Definition upper_char (c : ascii) : ascii :=
  if is_lower c then ascii_of_N (N_of_ascii c - 32) else c.

(** [str.upper] on ASCII text. *)
Fixpoint upper (s : string) : string :=
  match s with
  | EmptyString => EmptyString
  | String c s' => String (upper_char c) (upper s')
  end.

(** [str.isspace] on one ASCII character: TAB, LF, VT, FF, CR, the four
    separators FS GS RS US, and the blank. *)
Definition is_space (c : ascii) : bool :=
  let n := N_of_ascii c in
  (((9 <=? n) && (n <=? 13)) || ((28 <=? n) && (n <=? 32)))%N.

(** [s.startswith(p)]. *)
Fixpoint startswith (p s : string) : bool :=
  match p, s with
  | EmptyString, _ => true
  | String _ _, EmptyString => false
  | String a p', String b s' => Ascii.eqb a b && startswith p' s'
  end.

(** [k in s] for strings: [k] occurs at some position of [s]. *)
Fixpoint contains (k s : string) : bool :=
  startswith k s ||
  match s with
  | EmptyString => false
  | String _ s' => contains k s'
  end.

(** Membership of a character in a string used as a character set. *)
Fixpoint mem_char (c : ascii) (cs : string) : bool :=
  match cs with
  | EmptyString => false
  | String a cs' => Ascii.eqb c a || mem_char c cs'
  end.

(** Removal of the leading characters that satisfy [p]. *)
Fixpoint lstrip_where (p : ascii -> bool) (s : string) : string :=
  match s with
  | EmptyString => EmptyString
  | String c s' => if p c then lstrip_where p s' else s
  end.

(** Removal of the trailing characters that satisfy [p]. *)
Fixpoint rstrip_where (p : ascii -> bool) (s : string) : string :=
  match s with
  | EmptyString => EmptyString
  | String c s' =>
      match rstrip_where p s' with
      | EmptyString => if p c then EmptyString else String c EmptyString
      | r => String c r
      end
  end.

(** [s.strip()]: whitespace removed on both sides. *)
Definition strip (s : string) : string :=
  rstrip_where is_space (lstrip_where is_space s).

(** [s.rstrip(chars)]: trailing characters of the set [chars] removed. *)
Definition rstrip (chars s : string) : string :=
  rstrip_where (fun c => mem_char c chars) s.

(** [s.count(c)] for a one-character needle. *)
Fixpoint count_char (c : ascii) (s : string) : nat :=
  match s with
  | EmptyString => 0
  | String a s' => (if Ascii.eqb a c then 1 else 0) + count_char c s'
  end.


(** Every character of [s] satisfies [p]. *)
Fixpoint forall_chars (p : ascii -> bool) (s : string) : bool :=
  match s with
  | EmptyString => true
  | String c s' => p c && forall_chars p s'
  end.

(** [s.endswith(p)]. *)
Fixpoint endswith (p s : string) : bool :=
  String.eqb p s ||
  match s with
  | EmptyString => false
  | String _ s' => endswith p s'
  end.

Definition is_digit (c : ascii) : bool := mem_char c "0123456789".

(** [s.isascii()]: every character of [s] is a code point below 128. *)
Definition isascii (s : string) : bool :=
  forall_chars (fun c => (N_of_ascii c <? 128)%N) s.

(** [str(n)] for an [int]: decimal digits, with a minus sign below zero. *)
Definition str_of_int (n : Z) : string := NilZero.string_of_int (Z.to_int n).

(** ** Regular expressions ([re.search] with [re.IGNORECASE])

    The seven patterns of the source are sequences of one-character atoms
    (a literal, the class [\s], the dot), each optionally starred. *)

Inductive atom :=
| AChar (c : ascii)   (* a literal character, also written escaped *)
| ASpace              (* \s *)
| ADot.               (* .  : any character but a newline *)

Inductive quant := One | Star.

Definition regex := list (atom * quant).

Definition is_meta (c : ascii) : bool := mem_char c "*+?[](){}|^$".

(** The pattern text read into atoms; [None] on syntax outside the subset. *)
Fixpoint compile (p : string) : option regex :=
  let item (a : atom) (rest : string) :=
    match rest with
    | String "*" rest' => option_map (cons (a, Star)) (compile rest')
    | _ => option_map (cons (a, One)) (compile rest)
    end in
  match p with
  | EmptyString => Some nil
  | String "\" (String c rest) =>
      if Ascii.eqb c "s" then item ASpace rest
      else if is_meta c || mem_char c ".\/" then item (AChar c) rest
      else None
  | String "\" EmptyString => None
  | String c rest =>
      if is_meta c then None
      else item (if Ascii.eqb c "." then ADot else AChar c) rest
  end.

(** One atom against one ASCII character, letters compared without case. *)
Definition atom_match (a : atom) (x : ascii) : bool :=
  match a with
  | AChar c => Ascii.eqb (upper_char c) (upper_char x)
  | ASpace => is_space x
  | ADot => negb (Ascii.eqb x "010")
  end.

(** Some prefix of [s] matches [r] (a match anchored at the start). *)
Fixpoint match_here (r : regex) : string -> bool :=
  match r with
  | nil => fun _ => true
  | (a, One) :: r' =>
      fun s =>
        match s with
        | EmptyString => false
        | String c s' => atom_match a c && match_here r' s'
        end
  | (a, Star) :: r' =>
      fix star (s : string) : bool :=
        match_here r' s ||
        match s with
        | EmptyString => false
        | String c s' => atom_match a c && star s'
        end
  end.

(** A match of [r] starts at some position of [s]. *)
Fixpoint search (r : regex) (s : string) : bool :=
  match_here r s ||
  match s with
  | EmptyString => false
  | String _ s' => search r s'
  end.

(** [re.search(pattern, s, re.IGNORECASE)] as a truth value. *)
Definition re_search (pattern s : string) : bool :=
  match compile pattern with
  | Some r => search r s
  | None => false
  end.

(** ** SQLValidator *)

Definition FORBIDDEN_KEYWORDS : list string :=
  [ "DROP"; "DELETE"; "INSERT"; "UPDATE"; "ALTER"; "CREATE"; "TRUNCATE";
    "GRANT"; "REVOKE"; "EXECUTE"; "EXEC"; "CALL"; ";--"; "UNION";
    "INTO OUTFILE"; "LOAD_FILE"; "xp_cmdshell" ].

Definition injection_patterns : list string :=
  [ ";\s*DROP";
    ";\s*DELETE";
    "--\s";
    "/\*.*\*/";
    "@@version";
    "benchmark\s*\(";
    "sleep\s*\(" ].

(** The first element of a sequence that satisfies [p], as a [for] loop with
    an early [return] finds it. *)
Fixpoint first_hit {A} (p : A -> bool) (l : list A) : option A :=
  match l with
  | nil => None
  | x :: l' => if p x then Some x else first_hit p l'
  end.

(** [SQLValidator.validate_query].  [FORBIDDEN_KEYWORDS] is a Python set of
    strings, whose iteration order is fixed per process only; [kws] is the
    order in which this run iterates it. *)
Definition validate_query (kws : list string) (query : string)
  : bool * option string :=
  let query_upper := upper query in
  match first_hit (fun keyword => contains keyword query_upper) kws with
  | Some keyword => (false, Some ("Forbidden operation detected: " ++ keyword))
  | None =>
      if negb (startswith "SELECT" (strip query_upper)) then
        (false, Some "Query must start with SELECT")
      else if (1 <? count_char ";" query)%nat then
        (false, Some "Multiple statements not allowed")
      else
        match first_hit (fun pattern => re_search pattern query)
                        injection_patterns with
        | Some pattern =>
            (false, Some ("Potential SQL injection detected: " ++ pattern))
        | None => (true, None)
        end
  end.

(** The default of [max_limit]. *)
Definition DEFAULT_MAX_LIMIT : Z := 1000.

(** [SQLValidator.sanitize_limit]. *)
Definition sanitize_limit (query : string) (max_limit : Z) : string :=
  if negb (contains "LIMIT" (upper query)) then
    rstrip ";" query ++ " LIMIT " ++ str_of_int max_limit ++ ";"
  else query.

(** ** Python values, dicts and exceptions *)

(** The Python objects that travel through the pipeline: what [json.loads]
    yields and what the store returns in a row.  The pairs of a [VDict] are
    in insertion order. *)
Inductive value :=
| VNone
| VBool (b : bool)
| VInt (n : Z)
| VFloat (q : Q)
| VStr (s : string)
| VList (l : list value)
| VDict (kvs : list (string * value)).

(** The class name that Python prints for an object. *)
Definition type_name (v : value) : string :=
  match v with
  | VNone => "NoneType"
  | VBool _ => "bool"
  | VInt _ => "int"
  | VFloat _ => "float"
  | VStr _ => "str"
  | VList _ => "list"
  | VDict _ => "dict"
  end.

(** Truth value of an object, as [not x] and [if x] take it. *)
Definition truthy (v : value) : bool :=
  match v with
  | VNone => false
  | VBool b => b
  | VInt n => negb (n =? 0)%Z
  | VFloat q => negb (Qeq_bool q 0)
  | VStr s => negb (String.eqb s "")
  | VList l => match l with nil => false | _ => true end
  | VDict kvs => match kvs with nil => false | _ => true end
  end.

(** A dict that the code reads and writes by key. *)
Abbreviation dict := (gmap string value).

(** A dict display [{k1: v1, ...}]: later pairs overwrite earlier ones. *)
Definition dict_of (kvs : list (string * value)) : dict :=
  foldl (fun d kv => <[kv.1 := kv.2]> d) ∅ kvs.

(** [d.get(k)] and [d.get(k, default)]. *)
Definition dict_get (d : dict) (k : string) (default : value) : value :=
  match d !! k with
  | Some v => v
  | None => default
  end.

(** What a call yields: a result, or a raised exception [e] given by
    [str(e)]. *)
Inductive outcome (A : Type) :=
| Ret (a : A)
| Raise (msg : string).
Arguments Ret {A} a.
Arguments Raise {A} msg.

(** What the process does to the outside, in order. *)
Inductive event :=
| EvTranslate (question : string)   (* chat completion asked for SQL *)
| EvExecuteQuery (sql : value)      (* execute_query entered with [sql] *)
| EvConnect                         (* psycopg2.connect returned a connection *)
| EvExecute (sql : value)           (* cursor.execute(sql) called *)
| EvFetchall                        (* cursor.fetchall() called *)
| EvCursorClose                     (* cursor.close() *)
| EvConnClose                       (* conn.close() *)
| EvConnDealloc                     (* the connection object is deallocated
                                       unclosed: the driver closes it *)
| EvRender (question : string).     (* chat completion asked for an answer *)

Record world := {
  open_conns : nat;      (* store connections acquired and not yet closed *)
  trace : list event     (* oldest first *)
}.

Definition world0 : world := {| open_conns := 0; trace := nil |}.

(** Computations that may raise and that act on the world. *)
Definition M (A : Type) : Type := world -> outcome A * world.

#[global] Instance M_ret : MRet M := fun A a w => (Ret a, w).
#[global] Instance M_bind : MBind M := fun A B f m w =>
  match m w with
  | (Ret a, w') => f a w'
  | (Raise msg, w') => (Raise msg, w')
  end.

Definition raise {A} (msg : string) : M A := fun w => (Raise msg, w).

(** [try: body except Exception as e: handler(str(e))]. *)
Definition try_except {A} (body : M A) (handler : string -> M A) : M A :=
  fun w =>
    match body w with
    | (Ret a, w') => (Ret a, w')
    | (Raise msg, w') => handler msg w'
    end.

Definition log (ev : event) : M unit :=
  fun w => (Ret tt, {| open_conns := open_conns w; trace := trace w ++ [ev] |}).

(** An outside call whose outcome the environment gives. *)
Definition extern {A} (o : outcome A) : M A := fun w => (o, w).

Definition conn_opened : M unit :=
  fun w => (Ret tt, {| open_conns := S (open_conns w); trace := trace w |}).

Definition conn_closed : M unit :=
  fun w => (Ret tt, {| open_conns := pred (open_conns w); trace := trace w |}).

(** [d[k]]: raises [KeyError] on a missing key. *)
Definition subscript (d : dict) (k : string) : M value :=
  match d !! k with
  | Some v => mret v
  | None => raise ("'" ++ k ++ "'")
  end.

Definition attribute_error {A} (v : value) (attr : string) : M A :=
  raise ("'" ++ type_name v ++ "' object has no attribute '" ++ attr ++ "'").

(** The outside of the process. *)
Record env := {
  (* the order in which this process iterates the set FORBIDDEN_KEYWORDS *)
  kw_order : list string;
  (* chat completion for a question, its content read by json.loads *)
  chat_translate : string -> outcome value;
  (* psycopg2.connect with the configured parameters *)
  db_connect : outcome unit;
  (* cursor.execute(sql) *)
  db_execute : value -> outcome unit;
  (* cursor.fetchall() after cursor.execute(sql): the rows, as pairs of
     column and value *)
  db_fetchall : value -> outcome (list (list (string * value)));
  (* chat completion for an answer: question, SQL, rows *)
  chat_render : string -> value -> list value -> outcome value;
  (* str(x) of an object, as the interpreter and the driver define it *)
  py_str : value -> string
}.

(** ** NLToSQLConverter.generate_sql *)

Definition generate_sql (e : env) (natural_language_query : string) : M dict :=
  try_except
    (_ ← log (EvTranslate natural_language_query);
     response ← extern (chat_translate e natural_language_query);
     match response with
     | VDict kvs =>
         let response_json := dict_of kvs in
         let sql_query := dict_get response_json "sql" (VStr "") in
         match sql_query with
         | VStr sql_text =>
             let '(is_valid, error) := validate_query (kw_order e) sql_text in
             if negb is_valid then
               mret (dict_of
                 [ ("success", VBool false);
                   ("error", VStr ("Generated SQL failed validation: " ++
                                   match error with
                                   | Some reason => reason
                                   | None => "None"
                                   end));
                   ("sql", sql_query) ])
             else
               let sql_text := sanitize_limit sql_text DEFAULT_MAX_LIMIT in
               let response_json := <["sql" := VStr sql_text]> response_json in
               let response_json := <["success" := VBool true]> response_json in
               mret response_json
         | _ => attribute_error sql_query "upper"
         end
     | _ => attribute_error response "get"
     end)
    (fun msg =>
       mret (dict_of
         [ ("success", VBool false);
           ("error", VStr ("Failed to generate SQL: " ++ msg));
           ("sql", VNone) ])).

(** ** DatabaseExecutor.execute_query *)

(** [held_by_local body]: [body] is the part of a call that runs while a
    local variable is the only owner of an open connection, and that closes
    the connection before it returns.  When [body] raises instead, the
    connection is not closed; the caller's handler only builds its result, the
    call returns, its locals are deallocated, and the driver closes the
    connection of the deallocated object. *)
Definition held_by_local {A} (body : M A) : M A :=
  fun w =>
    match body w with
    | (Ret a, w') => (Ret a, w')
    | (Raise msg, w') =>
        (Raise msg, {| open_conns := pred (open_conns w');
                       trace := trace w' ++ [EvConnDealloc] |})
    end.

(** [DatabaseExecutor.execute_query].  The locals [conn] and [cursor] are
    the only references to the connection: neither is returned nor stored. *)
Definition execute_query (e : env) (sql : value) : M dict :=
  _ ← log (EvExecuteQuery sql);
  try_except
    (_ ← extern (db_connect e);
     _ ← conn_opened;
     _ ← log EvConnect;
     held_by_local
       (_ ← log (EvExecute sql);
        _ ← extern (db_execute e sql);
        _ ← log EvFetchall;
        results ← extern (db_fetchall e sql);
        let data := map VDict results in
        _ ← log EvCursorClose;
        _ ← conn_closed;
        _ ← log EvConnClose;
        mret (dict_of
          [ ("success", VBool true);
            ("data", VList data);
            ("row_count", VInt (Z.of_nat (length data)));
            ("error", VNone) ])))
    (fun msg =>
       mret (dict_of
         [ ("success", VBool false);
           ("data", VNone);
           ("row_count", VInt 0);
           ("error", VStr msg) ])).

(** ** AnswerGenerator *)

Definition nl : string := String "010" EmptyString.

(** [sep.join(parts)]. *)
Fixpoint join (sep : string) (parts : list string) : string :=
  match parts with
  | nil => ""
  | [p] => p
  | p :: rest => p ++ sep ++ join sep rest
  end.

(** The numbered lines of [_format_results_simple], counted from [i]. *)
Fixpoint numbered_rows (str : value -> string) (i : Z)
    (rows : list (list (string * value))) : string :=
  match rows with
  | nil => ""
  | row :: rest =>
      str_of_int i ++ ". " ++
      join ", " (map (fun kv => kv.1 ++ ": " ++ str kv.2) row) ++ nl ++
      numbered_rows str (i + 1) rest
  end.

(** [AnswerGenerator._format_results_simple]. *)
Definition _format_results_simple (str : value -> string) (query : string)
    (results : list (list (string * value))) : string :=
  match results with
  | [[(_, v)]] => "Result: " ++ str v
  | _ =>
      let output :=
        "Found " ++ str_of_int (Z.of_nat (length results)) ++ " results:" ++
        nl ++ nl in
      let output := output ++ numbered_rows str 1 (take 5 results) in
      if (5 <? length results)%nat then
        output ++ nl ++ "... and " ++
        str_of_int (Z.of_nat (length results) - 5) ++ " more results"
      else output
  end.

(** The rows of a result list as [_format_results_simple] reads them.  It
    takes the first [read] elements as dicts and only counts the others: an
    element that is no dict is returned as it is when it is among the first
    [read], and stands as an empty row when it comes later. *)
Fixpoint rows_of (read : nat) (l : list value)
  : list (list (string * value)) + value :=
  match l with
  | nil => inl nil
  | v :: l' =>
      let row (kvs : list (string * value)) :=
        match rows_of (pred read) l' with
        | inl rows => inl (kvs :: rows)
        | inr other => inr other
        end in
      match v, read with
      | VDict kvs, _ => row kvs
      | _, O => row nil
      | _, S _ => inr v
      end
  end.

(** The exception that stops [_format_results_simple] at a row that is no
    dict: [len(results[0])] when the row is the only one and has no length,
    [row.items()] otherwise. *)
Definition row_error (only : bool) (row : value) : string :=
  match row with
  | VStr _ | VList _ | VDict _ =>
      "'" ++ type_name row ++ "' object has no attribute 'items'"
  | _ =>
      if only then "object of type '" ++ type_name row ++ "' has no len()"
      else "'" ++ type_name row ++ "' object has no attribute 'items'"
  end.

(** [AnswerGenerator.generate_answer].  [results] is annotated
    [List[Dict]], and [process_query] passes the ["data"] of a successful
    execution: a list of row dicts.  A false object gives the fixed message.
    A list is shown to the rendering service whatever its elements are; when
    the service raises, the fallback reads the first five rows as dicts, and
    its exception on another element leaves the call.  A true object that is
    no list is outside the annotation and outside what [process_query]
    passes; the embedding raises on it, with the [TypeError] of
    [results[:10]] on a number. *)
Definition generate_answer (e : env) (natural_query : string)
    (sql_query results : value) : M value :=
  if negb (truthy results) then
    mret (VStr "No results found for your query.")
  else
    match results with
    | VList l =>
        try_except
          (_ ← log (EvRender natural_query);
           extern (chat_render e natural_query sql_query l))
          (fun _ =>
             match rows_of 5 l with
             | inl rows =>
                 mret (VStr (_format_results_simple (py_str e) natural_query
                                                    rows))
             | inr row => raise (row_error (length l =? 1)%nat row)
             end)
    | _ => raise ("'" ++ type_name results ++ "' object is not subscriptable")
    end.

(** ** ClearQuoteNLSQL.process_query *)

Definition process_query (e : env) (natural_language_query : string) : M dict :=
  (* Step 1: Convert to SQL *)
  sql_result ← generate_sql e natural_language_query;
  if negb (truthy (dict_get sql_result "success" VNone)) then
    mret (dict_of
      [ ("success", VBool false);
        ("error", dict_get sql_result "error" VNone);
        ("stage", VStr "sql_generation") ])
  else
    sql_query ← subscript sql_result "sql";
    (* Step 2: Execute SQL *)
    exec_result ← execute_query e sql_query;
    if negb (truthy (dict_get exec_result "success" VNone)) then
      mret (dict_of
        [ ("success", VBool false);
          ("error", dict_get exec_result "error" VNone);
          ("sql", sql_query);
          ("stage", VStr "execution") ])
    else
      (* Step 3: Generate natural language answer *)
      data ← subscript exec_result "data";
      answer ← generate_answer e natural_language_query sql_query data;
      row_count ← subscript exec_result "row_count";
      data' ← subscript exec_result "data";
      mret (dict_of
        [ ("success", VBool true);
          ("query", VStr natural_language_query);
          ("sql", sql_query);
          ("assumptions", dict_get sql_result "assumptions" (VList nil));
          ("confidence", dict_get sql_result "confidence" (VFloat 0));
          ("row_count", row_count);
          ("data", data');
          ("answer", answer);
          ("stage", VStr "complete") ]).

(** The SQL values with which [execute_query] was entered, oldest first. *)
Fixpoint executor_args (t : list event) : list value :=
  match t with
  | nil => nil
  | EvExecuteQuery sql :: t' => sql :: executor_args t'
  | _ :: t' => executor_args t'
  end.

(** ** The validator as an ordered list of checks

    The specification words the validator as four checks applied in a fixed
    order, the first failing one giving the reason.  [validate_in_order]
    follows those words; it is compared with [validate_query] below. *)

Inductive check :=
| ForbiddenScan      (* 1. forbidden-operation scan *)
| StatementShape     (* 2. the query begins with SELECT *)
| SingleStatement    (* 3. at most one statement terminator *)
| InjectionScan.     (* 4. injection patterns *)

Definition checks_in_order : list check :=
  [ForbiddenScan; StatementShape; SingleStatement; InjectionScan].

(** The reason with which one check, taken alone, refuses [query]. *)
Definition check_reason (kws : list string) (c : check) (query : string)
  : option string :=
  match c with
  | ForbiddenScan =>
      option_map (append "Forbidden operation detected: ")
        (first_hit (fun keyword => contains keyword (upper query)) kws)
  | StatementShape =>
      if startswith "SELECT" (strip (upper query)) then None
      else Some "Query must start with SELECT"
  | SingleStatement =>
      if (count_char ";" query <=? 1)%nat then None
      else Some "Multiple statements not allowed"
  | InjectionScan =>
      option_map (append "Potential SQL injection detected: ")
        (first_hit (fun pattern => re_search pattern query) injection_patterns)
  end.

(** The first result that a sequence of checks gives. *)
Fixpoint first_some {A B} (f : A -> option B) (l : list A) : option B :=
  match l with
  | nil => None
  | x :: l' =>
      match f x with
      | Some y => Some y
      | None => first_some f l'
      end
  end.

Definition validate_in_order (kws : list string) (query : string)
  : bool * option string :=
  match first_some (fun c => check_reason kws c query) checks_in_order with
  | Some reason => (false, Some reason)
  | None => (true, None)
  end.

(** ** What a pattern matches, declaratively *)

(** [matches r m]: the text [m], as a whole, is matched by the atoms of
    [r]. *)
Inductive matches : regex -> string -> Prop :=
| matches_nil : matches nil ""
| matches_one a c r m :
    atom_match a c = true -> matches r m ->
    matches ((a, One) :: r) (String c m)
| matches_star_skip a r m :
    matches r m -> matches ((a, Star) :: r) m
| matches_star_step a c r m :
    atom_match a c = true -> matches ((a, Star) :: r) m ->
    matches ((a, Star) :: r) (String c m).

(** ** Notions used to reason about a text followed by an appended clause *)

(** Some non-empty suffix of [k] is a prefix of [y]: an occurrence of [k]
    could begin before [y] and end inside it, or begin with [y]. *)
Fixpoint suffix_starts (k y : string) : bool :=
  match k with
  | EmptyString => false
  | String _ k' => startswith k y || suffix_starts k' y
  end.



(** The clause that [sanitize_limit] appends. *)
Definition limit_clause (max_limit : Z) : string :=
  " LIMIT " ++ str_of_int max_limit ++ ";".


(** ** Sample environments *)

(** A reply of the translation service that proposes [sql]. *)
Definition reply_with (sql : string) : value :=
  VDict [ ("sql", VStr sql);
          ("explanation", VStr "generated");
          ("assumptions", VList [VStr "last 30 days"]);
          ("confidence", VFloat (9 # 10)) ].

(** A process whose translation service proposes [sql], whose store answers
    [cursor.execute] with [on_execute], and whose rendering service is
    down. *)
Definition sample_env (sql : string) (on_execute : outcome unit) : env := {|
  kw_order := FORBIDDEN_KEYWORDS;
  chat_translate := fun _ => Ret (reply_with sql);
  db_connect := Ret tt;
  db_execute := fun _ => on_execute;
  db_fetchall := fun _ => Ret [[("count", VInt 5)]];
  chat_render := fun _ _ _ => Raise "rendering service unavailable";
  py_str := fun v =>
    match v with
    | VInt n => str_of_int n
    | VStr s => s
    | _ => "?"
    end
|}.

(** ** Notions used in the statements about the pipeline *)

(** The world after the translation service has been asked. *)
Definition translated (question : string) (w : world) : world :=
  {| open_conns := open_conns w;
     trace := trace w ++ [EvTranslate question] |}.

(** The message of the first store call of [execute_query] that raises. *)
Definition store_error (e : env) (sql : value) : option string :=
  match db_connect e with
  | Raise msg => Some msg
  | Ret _ =>
      match db_execute e sql with
      | Raise msg => Some msg
      | Ret _ =>
          match db_fetchall e sql with
          | Raise msg => Some msg
          | Ret _ => None
          end
      end
  end.

(** A process whose translation service yields [reply] and whose store has
    no rows. *)
Definition bare_env (reply : outcome value) : env := {|
  kw_order := FORBIDDEN_KEYWORDS;
  chat_translate := fun _ => reply;
  db_connect := Ret tt;
  db_execute := fun _ => Ret tt;
  db_fetchall := fun _ => Ret nil;
  chat_render := fun _ _ _ => Raise "rendering service unavailable";
  py_str := fun _ => ""
|}.

(** * Properties *)

(** ** Text *)

Section Text.

Lemma append_empty_r (s : string) : s ++ "" = s.
Proof. induction s as [|c s IH]; simpl; [reflexivity | now rewrite IH]. Qed.

Lemma append_assoc3 (a b c : string) : (a ++ b) ++ c = a ++ b ++ c.
Proof. induction a as [|x a IH]; simpl; [reflexivity | now rewrite IH]. Qed.

Lemma upper_app (a b : string) : upper (a ++ b) = upper a ++ upper b.
Proof. induction a as [|x a IH]; simpl; [reflexivity | now rewrite IH]. Qed.

Lemma ascii_eqb_sym (a b : ascii) : Ascii.eqb a b = Ascii.eqb b a.
Proof.
  destruct (Ascii.eqb_spec a b) as [->|Hne].
  - symmetry. apply Ascii.eqb_refl.
  - symmetry. apply Ascii.eqb_neq. congruence.
Qed.

Lemma mem_char_app (c : ascii) (a b : string) :
  mem_char c (a ++ b) = mem_char c a || mem_char c b.
Proof.
  induction a as [|x a IH]; simpl; [reflexivity|].
  rewrite IH. now rewrite orb_assoc.
Qed.



(** A character that occurs nowhere in [s] is not in it. *)
Lemma forall_chars_not_mem (p : ascii -> bool) (c : ascii) (s : string) :
  p c = false -> forall_chars p s = true -> mem_char c s = false.
Proof.
  intros Hc. induction s as [|x s IH]; simpl; [reflexivity|].
  intros [Hx Hs]%andb_prop.
  destruct (Ascii.eqb_spec c x) as [->|_]; [congruence|]. simpl. auto.
Qed.

(** *** Prefixes and occurrences *)

Lemma startswith_app (k s : string) : startswith k (k ++ s) = true.
Proof.
  induction k as [|a k IH]; simpl; [reflexivity|].
  now rewrite Ascii.eqb_refl.
Qed.

Lemma startswith_split (k s : string) :
  startswith k s = true -> exists t, s = k ++ t.
Proof.
  revert s. induction k as [|a k IH]; intros s; simpl.
  - intros _. now exists s.
  - destruct s as [|b s]; [discriminate|].
    intros [Hab Hk]%andb_prop. apply Ascii.eqb_eq in Hab as ->.
    destruct (IH _ Hk) as [t ->]. now exists t.
Qed.

Lemma startswith_app_l (k s t : string) :
  startswith k s = true -> startswith k (s ++ t) = true.
Proof.
  intros [u ->]%startswith_split. rewrite append_assoc3. apply startswith_app.
Qed.

(** A prefix cannot run over a character that it does not contain. *)
Lemma startswith_sep (k x y : string) (c : ascii) :
  mem_char c k = false ->
  startswith k (x ++ String c y) = startswith k x.
Proof.
  revert x. induction k as [|a k IH]; intros x Hc; simpl; [reflexivity|].
  simpl in Hc. apply orb_false_elim in Hc as [Hca Hk].
  destruct x as [|b x]; simpl.
  - now rewrite ascii_eqb_sym, Hca.
  - now rewrite IH.
Qed.

Lemma contains_app_l (k s t : string) :
  contains k s = true -> contains k (s ++ t) = true.
Proof.
  induction s as [|c s IH]; simpl.
  - rewrite orb_false_r. intros H.
    destruct k; [|discriminate]. now destruct t.
  - intros [H|H]%orb_prop.
    + change (String c (s ++ t)) with (String c s ++ t).
      now rewrite (startswith_app_l _ _ _ H).
    + rewrite (IH H). apply orb_true_r.
Qed.

Lemma contains_app_r (k s t : string) :
  contains k t = true -> contains k (s ++ t) = true.
Proof.
  intros H. induction s as [|c s IH]; simpl; [exact H|].
  rewrite IH. apply orb_true_r.
Qed.

Lemma contains_middle (k a b : string) : contains k (a ++ k ++ b) = true.
Proof.
  apply contains_app_r.
  destruct (k ++ b) eqn:E; simpl; rewrite <- E, startswith_app; reflexivity.
Qed.

Lemma contains_split (k s : string) :
  contains k s = true -> exists a b, s = a ++ k ++ b.
Proof.
  induction s as [|c s IH]; simpl.
  - rewrite orb_false_r. intros [t Ht]%startswith_split. now exists "", t.
  - intros [H|H]%orb_prop.
    + apply startswith_split in H as [t Ht]. now exists "", t.
    + destruct (IH H) as (a & b & ->). now exists (String c a), b.
Qed.

Lemma startswith_nonempty_empty (k : string) :
  k <> "" -> startswith k "" = false.
Proof. now destruct k. Qed.

(** Occurrences on both sides of a character that the needle lacks. *)
Lemma contains_sep (k x y : string) (c : ascii) :
  k <> "" -> mem_char c k = false ->
  contains k (x ++ String c y) = contains k x || contains k y.
Proof.
  intros Hk Hc. induction x as [|b x IH].
  - pose proof (startswith_sep k "" y c Hc) as E. simpl in *.
    now rewrite E, (startswith_nonempty_empty k Hk).
  - change (String b x ++ String c y) with (String b (x ++ String c y)).
    cbn [contains]. rewrite IH.
    change (String b (x ++ String c y)) with (String b x ++ String c y).
    rewrite startswith_sep by assumption. now rewrite orb_assoc.
Qed.



(** A needle whose first character is missing from [s] is not in [s]. *)
Lemma contains_first_char (a : ascii) (k s : string) :
  mem_char a s = false -> contains (String a k) s = false.
Proof.
  induction s as [|c s IH]; simpl; [reflexivity|].
  intros [Hac Hs]%orb_false_elim. now rewrite Hac, IH.
Qed.

End Text.

(** ** Stripping and decimal numerals *)

Section Strip.

(** What [rstrip_where] removes is a run of characters that satisfy [p]. *)
Lemma rstrip_where_split (p : ascii -> bool) (s : string) :
  exists t, s = rstrip_where p s ++ t /\ forall_chars p t = true.
Proof.
  induction s as [|c s (t & Hs & Ht)]; [now exists ""|].
  simpl. destruct (rstrip_where p s) as [|x r] eqn:E.
  - simpl in Hs. subst t. destruct (p c) eqn:Hc.
    + exists (String c s). simpl. now rewrite Hc, Ht.
    + exists s. now split.
  - exists t. split; [|exact Ht]. simpl. now rewrite Hs at 1.
Qed.

Lemma uint_digits (d : Decimal.uint) :
  forall_chars is_digit (NilEmpty.string_of_uint d) = true.
Proof. induction d; simpl; auto. Qed.

(** [str(n)] is a run of digits, after a minus sign when [n] is negative. *)
Lemma str_of_int_shape (n : Z) :
  exists ds, forall_chars is_digit ds = true /\
             (str_of_int n = ds \/ str_of_int n = String "-" ds).
Proof.
  unfold str_of_int, NilZero.string_of_int, NilZero.string_of_uint.
  destruct (Z.to_int n) as [d|d].
  - destruct d; (eexists; split; [|left; reflexivity]);
      try reflexivity; simpl; apply uint_digits.
  - destruct d; (eexists; split; [|right; reflexivity]);
      try reflexivity; simpl; apply uint_digits.
Qed.

Lemma digit_not_upper (c : ascii) :
  is_digit c = true -> upper_char c = c.
Proof.
  unfold is_digit. simpl. rewrite orb_false_r.
  repeat (intros [->%Ascii.eqb_eq|H]%orb_prop; [reflexivity|revert H]).
  now intros ->%Ascii.eqb_eq.
Qed.

Lemma upper_digits (ds : string) :
  forall_chars is_digit ds = true -> upper ds = ds.
Proof.
  induction ds as [|c ds IH]; simpl; [reflexivity|].
  intros [Hc Hds]%andb_prop. now rewrite (digit_not_upper _ Hc), IH.
Qed.

Lemma upper_str_of_int (n : Z) : upper (str_of_int n) = str_of_int n.
Proof.
  destruct (str_of_int_shape n) as (ds & Hds & [-> | ->]); simpl;
    now rewrite upper_digits.
Qed.


End Strip.

(** ** The validator *)

Section Validator.

Lemma first_hit_none {A} (p : A -> bool) (l : list A) :
  first_hit p l = None <-> Forall (fun x => p x = false) l.
Proof.
  induction l as [|x l IH]; simpl.
  - split; [constructor | reflexivity].
  - destruct (p x) eqn:Hx.
    + split; [discriminate|]. inversion 1; congruence.
    + rewrite IH. split; [now constructor | now inversion 1].
Qed.

Lemma first_hit_some {A} (p : A -> bool) (l : list A) (x : A) :
  first_hit p l = Some x -> In x l /\ p x = true.
Proof.
  induction l as [|y l IH]; simpl; [discriminate|].
  destruct (p y) eqn:Hy.
  - intros [= ->]. auto.
  - intros H. destruct (IH H). auto.
Qed.

Lemma first_hit_found {A} (p : A -> bool) (l : list A) (x : A) :
  In x l -> p x = true -> exists y, first_hit p l = Some y.
Proof.
  intros Hx Hp. destruct (first_hit p l) as [y|] eqn:E; [now exists y|].
  apply first_hit_none in E. rewrite Forall_forall in E.
  rewrite (E x) in Hp; [discriminate|]. now apply list_elem_of_In.
Qed.

(** Whether a loop over a set finds nothing does not depend on the order. *)
Lemma first_hit_none_perm {A} (p : A -> bool) (l l' : list A) :
  Permutation l l' -> first_hit p l = None -> first_hit p l' = None.
Proof.
  intros Hperm. rewrite !first_hit_none. now rewrite Hperm.
Qed.

(** When no forbidden keyword occurs, the verdict is that of the three later
    checks, whatever the iteration order. *)
Lemma validate_query_order (kws kws' : list string) (query : string) :
  Permutation kws kws' ->
  first_hit (fun keyword => contains keyword (upper query)) kws' = None ->
  validate_query kws query = validate_query kws' query.
Proof.
  intros Hperm Hnone. unfold validate_query. rewrite Hnone.
  now rewrite (first_hit_none_perm _ _ _ (Permutation_sym Hperm) Hnone).
Qed.

Lemma validate_query_accept_order (kws : list string) (query : string) :
  Permutation kws FORBIDDEN_KEYWORDS ->
  validate_query FORBIDDEN_KEYWORDS query = (true, None) ->
  validate_query kws query = (true, None).
Proof.
  intros Hperm Hok. rewrite (validate_query_order _ _ _ Hperm); [exact Hok|].
  unfold validate_query in Hok.
  now destruct (first_hit _ FORBIDDEN_KEYWORDS).
Qed.

(** A rejection always carries a reason, an acceptance never. *)
Lemma validate_query_verdict (kws : list string) (query : string) :
  validate_query kws query = (true, None) \/
  exists reason, validate_query kws query = (false, Some reason).
Proof.
  unfold validate_query.
  destruct (first_hit _ kws); [right; eauto|].
  destruct (negb _); [right; eauto|].
  destruct (_ <? _)%nat; [right; eauto|].
  destruct (first_hit _ injection_patterns); [right; eauto | now left].
Qed.

(** The nested tests of the code and the ordered list of checks agree. *)
Lemma validate_query_refines (kws : list string) (query : string) :
  validate_query kws query = validate_in_order kws query.
Proof.
  unfold validate_query, validate_in_order, checks_in_order.
  cbn [first_some check_reason].
  destruct (first_hit _ kws); cbn [option_map]; [reflexivity|].
  destruct (startswith "SELECT" _); cbn [negb]; [|reflexivity].
  rewrite Nat.ltb_antisym.
  destruct (count_char ";" query <=? 1)%nat; cbn [negb]; [|reflexivity].
  now destruct (first_hit _ injection_patterns).
Qed.

(** C7: [validate_query] is the four checks in the order forbidden-operation
    scan, SELECT-start check, single-statement check, injection scan: for every
    input its verdict is that of the first check in this order that fails, a
    failing check giving the reason whatever the later checks would say, and
    the query is accepted when none fails. *)
Theorem validate_query_checks_in_order (kws : list string) (query : string) :
  validate_query kws query = validate_in_order kws query /\
  (forall r, check_reason kws ForbiddenScan query = Some r ->
             validate_query kws query = (false, Some r)) /\
  (forall r, check_reason kws ForbiddenScan query = None ->
             check_reason kws StatementShape query = Some r ->
             validate_query kws query = (false, Some r)) /\
  (forall r, check_reason kws ForbiddenScan query = None ->
             check_reason kws StatementShape query = None ->
             check_reason kws SingleStatement query = Some r ->
             validate_query kws query = (false, Some r)) /\
  (forall r, check_reason kws ForbiddenScan query = None ->
             check_reason kws StatementShape query = None ->
             check_reason kws SingleStatement query = None ->
             check_reason kws InjectionScan query = Some r ->
             validate_query kws query = (false, Some r)) /\
  ((forall c, check_reason kws c query = None) ->
   validate_query kws query = (true, None)).
Proof.
  split; [apply validate_query_refines|]. rewrite validate_query_refines.
  unfold validate_in_order, checks_in_order. cbn [first_some].
  repeat split.
  - now intros r ->.
  - now intros r -> ->.
  - now intros r -> -> ->.
  - now intros r -> -> -> ->.
  - intros H. now rewrite !H.
Qed.

(** Two inputs on which several checks fail at once: the earlier one names
    the reason. *)
Example order_forbidden_before_shape :
  validate_query FORBIDDEN_KEYWORDS "DROP TABLE t; -- x ; ;" =
    (false, Some "Forbidden operation detected: DROP").
Proof. reflexivity. Qed.

Example order_shape_before_terminators :
  validate_query FORBIDDEN_KEYWORDS "WITH x; -- y ; ;" =
    (false, Some "Query must start with SELECT").
Proof. reflexivity. Qed.

Example order_terminators_before_patterns :
  validate_query FORBIDDEN_KEYWORDS "SELECT 1; -- y ; ;" =
    (false, Some "Multiple statements not allowed").
Proof. reflexivity. Qed.

End Validator.

(** ** The row cap *)

Section RowCap.

Lemma sanitize_limit_present (query : string) (max_limit : Z) :
  contains "LIMIT" (upper query) = true ->
  sanitize_limit query max_limit = query.
Proof. unfold sanitize_limit. now intros ->. Qed.

Lemma sanitize_limit_absent (query : string) (max_limit : Z) :
  contains "LIMIT" (upper query) = false ->
  sanitize_limit query max_limit =
    rstrip ";" query ++ " LIMIT " ++ str_of_int max_limit ++ ";".
Proof. unfold sanitize_limit. now intros ->. Qed.

(** The appended clause in upper case is itself. *)
Lemma upper_limit_clause (r : string) (n : Z) :
  upper (r ++ " LIMIT " ++ str_of_int n ++ ";") =
  upper r ++ " LIMIT " ++ str_of_int n ++ ";".
Proof.
  rewrite !upper_app, upper_str_of_int. reflexivity.
Qed.



(** C10: a query in which the letters l-i-m-i-t occur in a row in any letter
    case, wherever they are (a clause, part of an identifier, an alias, a
    string literal), is returned by [sanitize_limit] as it is: no cap is
    appended. *)
Theorem sanitize_limit_any_limit_substring
    (query before word after : string) (max_limit : Z) :
  query = before ++ word ++ after ->
  upper word = "LIMIT" ->
  sanitize_limit query max_limit = query.
Proof.
  intros -> Hword. apply sanitize_limit_present.
  rewrite !upper_app, Hword. apply contains_middle.
Qed.

Lemma sanitize_limit_any_limit_substring_witness :
  sanitize_limit "SELECT id AS unlimited_plan FROM quotes" 1000 =
    "SELECT id AS unlimited_plan FROM quotes".
Proof.
  apply (sanitize_limit_any_limit_substring _ "SELECT id AS un" "limit"
           "ed_plan FROM quotes"); reflexivity.
Defined.




End RowCap.

(** ** Forbidden operations *)

Section Forbidden.

(** No text in upper case contains a token that has a lower-case letter. *)
Lemma upper_char_not_lower (c : ascii) : is_lower (upper_char c) = false.
Proof.
  destruct c as [[] [] [] [] [] [] [] []]; reflexivity.
Qed.

Lemma lower_not_in_upper (c : ascii) (s : string) :
  is_lower c = true -> mem_char c (upper s) = false.
Proof.
  intros Hc. induction s as [|x s IH]; simpl; [reflexivity|].
  rewrite IH, orb_false_r. apply Ascii.eqb_neq. intros ->.
  now rewrite upper_char_not_lower in Hc.
Qed.

Lemma xp_cmdshell_never_found (query : string) :
  contains "xp_cmdshell" (upper query) = false.
Proof. apply contains_first_char. now apply lower_not_in_upper. Qed.

(** C2 at its failing input: the token [xp_cmdshell] is in the configured
    set and occurs in the query, yet the query is accepted, in every
    iteration order of the set.  The scan looks for the token, written in
    lower case, in the upper-cased query, where it is never found. *)
Theorem xp_cmdshell_not_detected (kws : list string) :
  Permutation kws FORBIDDEN_KEYWORDS ->
  In "xp_cmdshell" FORBIDDEN_KEYWORDS /\
  (forall query, contains "xp_cmdshell" (upper query) = false) /\
  contains "xp_cmdshell" "SELECT xp_cmdshell" = true /\
  validate_query kws "SELECT xp_cmdshell" = (true, None).
Proof.
  intros Hperm. repeat split.
  - simpl. tauto.
  - apply xp_cmdshell_never_found.
  - now apply validate_query_accept_order.
Qed.

Lemma xp_cmdshell_not_detected_witness :
  validate_query FORBIDDEN_KEYWORDS "SELECT xp_cmdshell" = (true, None).
Proof.
  apply (xp_cmdshell_not_detected FORBIDDEN_KEYWORDS (Permutation_refl _)).
Defined.

(** The tokens written in upper case are found in any letter case and at any
    position; the reason names a token of the set that the query contains
    (the first one in the iteration order). *)
Lemma upper_case_token_rejected
    (kws : list string) (query before word after token : string) :
  Permutation kws FORBIDDEN_KEYWORDS ->
  In token FORBIDDEN_KEYWORDS ->
  query = before ++ word ++ after ->
  upper word = token ->
  exists found,
    In found FORBIDDEN_KEYWORDS /\
    contains found (upper query) = true /\
    validate_query kws query =
      (false, Some ("Forbidden operation detected: " ++ found)).
Proof.
  intros Hperm Htok -> Hword.
  assert (Hin : contains token (upper (before ++ word ++ after)) = true).
  { rewrite !upper_app, Hword. apply contains_middle. }
  assert (Hkws : In token kws).
  { apply list_elem_of_In. rewrite Hperm. now apply list_elem_of_In. }
  destruct (first_hit_found
              (fun keyword => contains keyword (upper (before ++ word ++ after)))
              kws token Hkws Hin) as [found Hfound].
  exists found. destruct (first_hit_some _ _ _ Hfound) as [Hf1 Hf2].
  repeat split.
  - apply list_elem_of_In. rewrite <- Hperm. now apply list_elem_of_In.
  - exact Hf2.
  - unfold validate_query. now rewrite Hfound.
Qed.

End Forbidden.

(** ** Matching in a text followed by more text *)

Section Appended.

Lemma startswith_app_cases (k x y : string) :
  startswith k (x ++ y) = true ->
  startswith k x = true \/ suffix_starts k y = true.
Proof.
  revert x. induction k as [|a k IH]; intros x; [now left|].
  destruct x as [|c x].
  - simpl (_ ++ _). intros H. right. cbn [suffix_starts]. now rewrite H.
  - simpl. intros [Hac H]%andb_prop. rewrite Hac. simpl.
    destruct (IH _ H) as [Hl|Hr]; [now left|].
    right. rewrite Hr. apply orb_true_r.
Qed.

(** An occurrence of [k] in [x ++ y] lies in [x], or reaches into [y], or
    lies in [y]. *)
Lemma contains_app_cases (k x y : string) :
  contains k (x ++ y) = true ->
  contains k x = true \/ suffix_starts k y = true \/ contains k y = true.
Proof.
  induction x as [|c x IH]; [simpl (_ ++ _); auto|].
  change (String c x ++ y) with (String c (x ++ y)). cbn [contains].
  intros [H|H]%orb_prop.
  - change (String c (x ++ y)) with (String c x ++ y) in H.
    destruct (startswith_app_cases _ _ _ H) as [Hl|Hr]; [|auto].
    left. now rewrite Hl.
  - destruct (IH H) as [Hl|Hr]; [|auto].
    left. rewrite Hl. apply orb_true_r.
Qed.

Lemma match_here_one (a : atom) (r : regex) (s : string) :
  match_here ((a, One) :: r) s =
  match s with
  | EmptyString => false
  | String c s' => atom_match a c && match_here r s'
  end.
Proof. reflexivity. Qed.

Lemma match_here_star (a : atom) (r : regex) (s : string) :
  match_here ((a, Star) :: r) s =
  match_here r s ||
  match s with
  | EmptyString => false
  | String c s' => atom_match a c && match_here ((a, Star) :: r) s'
  end.
Proof. destruct s; reflexivity. Qed.



Lemma search_app_r (r : regex) (s t : string) :
  search r t = true -> search r (s ++ t) = true.
Proof.
  intros H. induction s as [|c s IH]; [exact H|].
  simpl. rewrite IH. apply orb_true_r.
Qed.



(** *** The matcher against the declarative relation *)

Lemma matches_match_here (r : regex) (m t : string) :
  matches r m -> match_here r (m ++ t) = true.
Proof.
  induction 1 as [|a c r m Hc _ IH|a r m _ IH|a c r m Hc _ IH];
    simpl (_ ++ _).
  - reflexivity.
  - now rewrite match_here_one, Hc, IH.
  - now rewrite match_here_star, IH.
  - rewrite match_here_star, Hc, IH. apply orb_true_r.
Qed.

Lemma match_here_matches (r : regex) (s : string) :
  match_here r s = true -> exists m t, s = m ++ t /\ matches r m.
Proof.
  revert s. induction r as [|[a []] r IH]; intros s.
  - intros _. exists "", s. split; [reflexivity | constructor].
  - rewrite match_here_one. destruct s as [|c s]; [discriminate|].
    intros [Hc (m & t & -> & Hm)%IH]%andb_prop.
    exists (String c m), t. split; [reflexivity | now constructor].
  - induction s as [|c s IHs]; rewrite match_here_star.
    + rewrite orb_false_r. intros (m & t & Hs & Hm)%IH.
      exists m, t. split; [exact Hs | now constructor].
    + intros [(m & t & Hs & Hm)%IH | [Hc (m & t & -> & Hm)%IHs]%andb_prop]%orb_prop.
      * exists m, t. split; [exact Hs | now constructor].
      * exists (String c m), t. split; [reflexivity | now constructor].
Qed.

(** [search] finds a match exactly when some part of the text is matched. *)
Lemma search_matches (r : regex) (s : string) :
  search r s = true <-> exists a m b, s = a ++ m ++ b /\ matches r m.
Proof.
  split.
  - induction s as [|c s IH]; cbn [search].
    + rewrite orb_false_r. intros (m & t & Hs & Hm)%match_here_matches.
      now exists "", m, t.
    + intros [(m & t & Hs & Hm)%match_here_matches | (a & m & b & -> & Hm)%IH]%orb_prop.
      * now exists "", m, t.
      * now exists (String c a), m, b.
  - intros (a & m & b & -> & Hm). apply search_app_r.
    pose proof (matches_match_here r m b Hm) as H.
    destruct (m ++ b); cbn [search]; now rewrite H.
Qed.

End Appended.

(** ** The checks on a text followed by the appended clause *)

Section Revalidation.

Lemma count_char_app (c : ascii) (a b : string) :
  count_char c (a ++ b) = count_char c a + count_char c b.
Proof. induction a as [|x a IH]; simpl; [reflexivity | rewrite IH; lia]. Qed.

Lemma lstrip_where_split (p : ascii -> bool) (s : string) :
  exists w, s = w ++ lstrip_where p s /\ forall_chars p w = true.
Proof.
  induction s as [|c s (w & Hs & Hw)]; [now exists ""|].
  simpl. destruct (p c) eqn:Hc.
  - exists (String c w). simpl. rewrite Hc, Hw. split; [|reflexivity].
    now rewrite Hs at 1.
  - now exists "".
Qed.

Lemma lstrip_where_skip (p : ascii -> bool) (w z : string) (c : ascii) :
  forall_chars p w = true -> p c = false ->
  lstrip_where p (w ++ String c z) = String c z.
Proof.
  intros Hw Hc. induction w as [|x w IH]; simpl in *.
  - now rewrite Hc.
  - apply andb_prop in Hw as [-> Hw]. auto.
Qed.

Lemma rstrip_where_keeps (p : ascii -> bool) (k u : string) (a : ascii) :
  p a = false -> exists v, rstrip_where p (k ++ String a u) = k ++ String a v.
Proof.
  intros Ha. induction k as [|c k (v & IH)]; simpl.
  - destruct (rstrip_where p u) as [|y r]; [rewrite Ha|]; eauto.
  - rewrite IH. exists v. now destruct k.
Qed.

(** The SELECT-start check holds exactly of blanks followed by SELECT. *)
Lemma shape_check_spec (s : string) :
  startswith "SELECT" (strip s) = true <->
  exists w z, s = w ++ "SELECT" ++ z /\ forall_chars is_space w = true.
Proof.
  unfold strip. split.
  - intros [u Hu]%startswith_split.
    destruct (lstrip_where_split is_space s) as (w & Hs & Hw).
    destruct (rstrip_where_split is_space (lstrip_where is_space s))
      as (t & Ht & _).
    exists w, (u ++ t). split; [|exact Hw].
    rewrite Hs at 1. rewrite Ht at 1. rewrite Hu.
    now rewrite !append_assoc3.
  - intros (w & z & -> & Hw).
    change ("SELECT" ++ z) with (String "S" ("ELECT" ++ z)).
    rewrite lstrip_where_skip by (assumption || reflexivity).
    change (String "S" ("ELECT" ++ z)) with ("SELEC" ++ String "T" z).
    destruct (rstrip_where_keeps is_space "SELEC" z "T" eq_refl) as [v ->].
    reflexivity.
Qed.

Lemma semicolons_upper (s : string) :
  forall_chars (fun c => mem_char c ";") s = true -> upper s = s.
Proof.
  induction s as [|c s IH]; simpl; [reflexivity|].
  rewrite orb_false_r. intros [->%Ascii.eqb_eq Hs]%andb_prop.
  now rewrite IH.
Qed.

(** The SELECT-start check survives the replacement of trailing semicolons
    by any text. *)
Lemma shape_check_appended (r sem t : string) :
  forall_chars (fun c => mem_char c ";") sem = true ->
  startswith "SELECT" (strip (upper (r ++ sem))) = true ->
  startswith "SELECT" (strip (upper r ++ t)) = true.
Proof.
  intros Hsem (w & z & Hq & Hw)%shape_check_spec.
  apply shape_check_spec.
  assert (Hpre : startswith (w ++ "SELECT") (upper r) = true).
  { rewrite upper_app, (semicolons_upper _ Hsem) in Hq.
    destruct sem as [|c sem].
    - rewrite append_empty_r in Hq. rewrite Hq, <- append_assoc3.
      apply startswith_app.
    - simpl in Hsem. rewrite orb_false_r in Hsem.
      apply andb_prop in Hsem as [->%Ascii.eqb_eq _].
      rewrite <- (startswith_sep _ (upper r) sem ";").
      + rewrite Hq, <- append_assoc3. apply startswith_app.
      + rewrite mem_char_app.
        now rewrite (forall_chars_not_mem is_space ";" w eq_refl Hw). }
  apply startswith_split in Hpre as [z' ->].
  exists w, (z' ++ t). split; [|exact Hw]. now rewrite !append_assoc3.
Qed.



Lemma endswith_cons (p s : string) (c : ascii) :
  endswith p s = true -> endswith p (String c s) = true.
Proof. intros H. simpl. rewrite H. apply orb_true_r. Qed.


Lemma validate_query_accepted_iff (kws : list string) (query : string) :
  validate_query kws query = (true, None) <->
  first_hit (fun keyword => contains keyword (upper query)) kws = None /\
  startswith "SELECT" (strip (upper query)) = true /\
  count_char ";" query <= 1 /\
  first_hit (fun pattern => re_search pattern query) injection_patterns = None.
Proof.
  unfold validate_query. split.
  - destruct (first_hit _ kws); [discriminate|].
    destruct (startswith "SELECT" _); [|discriminate]. cbn [negb].
    destruct (Nat.ltb_spec 1 (count_char ";" query)); [discriminate|].
    destruct (first_hit _ injection_patterns); [discriminate|].
    intros _. repeat split; lia.
  - intros (-> & -> & Hc & ->). cbn [negb].
    destruct (Nat.ltb_spec 1 (count_char ";" query)); [lia | reflexivity].
Qed.

(** No forbidden keyword begins or lies in the clause appended by default. *)
Lemma keywords_clear_of_clause (k : string) :
  In k FORBIDDEN_KEYWORDS ->
  suffix_starts k (limit_clause DEFAULT_MAX_LIMIT) = false /\
  contains k (limit_clause DEFAULT_MAX_LIMIT) = false.
Proof.
  intros Hk.
  assert (Hall : forallb
            (fun k => negb (suffix_starts k (limit_clause DEFAULT_MAX_LIMIT)) &&
                      negb (contains k (limit_clause DEFAULT_MAX_LIMIT)))
            FORBIDDEN_KEYWORDS = true) by (vm_compute; reflexivity).
  rewrite forallb_forall in Hall. specialize (Hall k Hk).
  apply andb_prop in Hall as [H1 H2].
  now rewrite negb_true_iff in H1, H2.
Qed.

Lemma forbidden_scan_appended (kws : list string) (x : string) :
  Permutation kws FORBIDDEN_KEYWORDS ->
  first_hit (fun keyword => contains keyword x) kws = None ->
  first_hit
    (fun keyword => contains keyword (x ++ limit_clause DEFAULT_MAX_LIMIT))
    kws = None.
Proof.
  intros Hperm. rewrite !first_hit_none, !Forall_forall.
  intros H k Hk. specialize (H k Hk).
  assert (Hin : In k FORBIDDEN_KEYWORDS).
  { apply list_elem_of_In. now rewrite <- Hperm. }
  destruct (keywords_clear_of_clause k Hin) as [H1 H2].
  destruct (contains k (x ++ _)) eqn:E; [|reflexivity].
  apply contains_app_cases in E as [E|[E|E]]; congruence.
Qed.






End Revalidation.

(** ** Validation after normalization, and the injection scan *)

Section Normalized.







(** *** The two statement-stacking patterns never name the reason *)

Lemma matches_star_split (a : atom) (r : regex) (m : string) :
  matches ((a, Star) :: r) m -> exists w m', m = w ++ m' /\ matches r m'.
Proof.
  remember ((a, Star) :: r) as r0 eqn:Hr0.
  induction 1 as [| | a' r' m Hm _ | a' c r' m Hc Hm IH]; try discriminate.
  - injection Hr0 as -> ->. now exists "", m.
  - destruct (IH Hr0) as (w & m' & -> & Hm').
    now exists (String c w), m'.
Qed.

Lemma atom_char_upper (c x : ascii) :
  atom_match (AChar c) x = true -> upper_char x = upper_char c.
Proof. simpl. now intros ->%Ascii.eqb_eq. Qed.

(** A match of [;\s*DROP] contains DROP in some letter case. *)
Lemma drop_pattern_shadowed (query : string) :
  re_search ";\s*DROP" query = true -> contains "DROP" (upper query) = true.
Proof.
  intros (a & m & b & -> & Hm)%search_matches.
  rewrite !upper_app. apply contains_app_r, contains_app_l.
  inversion Hm as [|? c0 ? m0 _ Hstar| |]; subst.
  apply matches_star_split in Hstar as (w & m' & -> & Hm').
  change (upper (String c0 (w ++ m'))) with (upper (String c0 w ++ m')).
  rewrite upper_app. apply contains_app_r.
  inversion Hm' as [|? c1 ? m1 H1 Hm1| |]; subst.
  inversion Hm1 as [|? c2 ? m2 H2 Hm2| |]; subst.
  inversion Hm2 as [|? c3 ? m3 H3 Hm3| |]; subst.
  inversion Hm3 as [|? c4 ? m4 H4 Hm4| |]; subst.
  inversion Hm4; subst. cbn [upper].
  now rewrite (atom_char_upper _ _ H1), (atom_char_upper _ _ H2),
    (atom_char_upper _ _ H3), (atom_char_upper _ _ H4).
Qed.

(** So a query that [;\s*DROP] matches is refused by the forbidden-operation
    scan, before the injection scan is reached. *)
Lemma drop_pattern_reason (kws : list string) (query : string) :
  Permutation kws FORBIDDEN_KEYWORDS ->
  re_search ";\s*DROP" query = true ->
  exists keyword,
    contains keyword (upper query) = true /\
    validate_query kws query =
      (false, Some ("Forbidden operation detected: " ++ keyword)).
Proof.
  intros Hperm Hm%drop_pattern_shadowed.
  assert (Hin : In "DROP" kws).
  { apply list_elem_of_In. rewrite Hperm. apply list_elem_of_In.
    simpl. tauto. }
  destruct (first_hit_found
              (fun keyword => contains keyword (upper query)) kws "DROP" Hin Hm)
    as [keyword Hk].
  exists keyword. split; [apply (first_hit_some _ _ _ Hk)|].
  unfold validate_query. now rewrite Hk.
Qed.

End Normalized.

(** ** The pipeline *)

(** Two readings of the reply of one translation call give one candidate. *)
Ltac same_candidate :=
  match goal with
  | H1 : chat_translate ?e ?q = Ret (VDict ?k1),
    H2 : chat_translate ?e ?q = Ret (VDict ?k2) |- _ =>
      rewrite H1 in H2; injection H2 as <-
  end;
  match goal with
  | H1 : dict_get ?d "sql" ?v = VStr ?c1,
    H2 : dict_get ?d "sql" ?v = VStr ?c2 |- _ =>
      rewrite H1 in H2; injection H2 as <-
  end.

Section Pipeline.

Lemma executor_args_app (t u : list event) :
  executor_args (t ++ u) = (executor_args t ++ executor_args u)%list.
Proof.
  induction t as [|ev t IH]; [reflexivity|].
  destruct ev; simpl; now rewrite IH.
Qed.

(** What [generate_sql] returns: a failure dict, or the service's reply with
    the normalized text of an accepted candidate under ["sql"].  It never
    raises, and it only asks the translation service. *)
Lemma generate_sql_spec (e : env) (question : string) (w : world) :
  exists d,
    generate_sql e question w =
      (Ret d, {| open_conns := open_conns w;
                 trace := trace w ++ [EvTranslate question] |}) /\
    ((truthy (dict_get d "success" VNone) = false /\
      (forall kvs c, chat_translate e question = Ret (VDict kvs) ->
         dict_get (dict_of kvs) "sql" (VStr "") = VStr c ->
         validate_query (kw_order e) c <> (true, None) /\
         d !! "sql" = Some (VStr c)))
     \/
     (truthy (dict_get d "success" VNone) = true /\
      exists kvs c,
        chat_translate e question = Ret (VDict kvs) /\
        dict_get (dict_of kvs) "sql" (VStr "") = VStr c /\
        validate_query (kw_order e) c = (true, None) /\
        d !! "sql" = Some (VStr (sanitize_limit c DEFAULT_MAX_LIMIT)))).
Proof.
  unfold generate_sql, try_except, mbind, M_bind, log, extern,
    attribute_error, raise, mret, M_ret.
  destruct (chat_translate e question) as [response|msg] eqn:Hreply.
  - destruct response as [| | | | |l|kvs];
      try (eexists; split; [reflexivity|]; left; split;
           [reflexivity | intros ? ? [=]]).
    destruct (dict_get (dict_of kvs) "sql" (VStr "")) as [| | | |c| |] eqn:Hsql;
      try (eexists; split; [reflexivity|]; left; split;
           [reflexivity | intros ? ? [= <-]; congruence]).
    destruct (validate_query_verdict (kw_order e) c) as [Hok|[reason Hr]].
    + rewrite Hok. cbn [negb].
      eexists; split; [reflexivity|]. right. split.
      * unfold dict_get. now rewrite lookup_insert_eq.
      * exists kvs, c. repeat split; try assumption.
        rewrite lookup_insert_ne by discriminate. apply lookup_insert_eq.
    + rewrite Hr. cbn [negb].
      eexists; split; [reflexivity|]. left. split; [reflexivity|].
      intros ? ? [= <-] Hc. rewrite Hsql in Hc. injection Hc as <-.
      split; [congruence | reflexivity].
  - eexists; split; [reflexivity|]. left. split; [reflexivity|].
    intros ? ? [=].
Qed.

(** What [execute_query] returns and does: it never raises; it is entered
    with [sql] once; it leaves as many connections open as it found; it
    fails when a store call raises, and succeeds with the rows otherwise. *)
Lemma execute_query_spec (e : env) (sql : value) (w : world) :
  exists d w',
    execute_query e sql w = (Ret d, w') /\
    executor_args (trace w') = (executor_args (trace w) ++ [sql])%list /\
    open_conns w' = open_conns w /\
    ((truthy (dict_get d "success" VNone) = false /\
      (exists msg, d !! "error" = Some (VStr msg)) /\
      ((exists msg, db_connect e = Raise msg) \/
       (db_connect e = Ret tt /\
        exists msg, db_execute e sql = Raise msg \/
                    db_fetchall e sql = Raise msg)))
     \/
     (truthy (dict_get d "success" VNone) = true /\
      exists rows,
        db_fetchall e sql = Ret rows /\
        d !! "data" = Some (VList (map VDict rows)) /\
        d !! "row_count" =
          Some (VInt (Z.of_nat (length (map VDict rows)))))).
Proof.
  unfold execute_query, try_except, held_by_local, mbind, M_bind, log, extern,
    conn_opened, conn_closed, mret, M_ret.
  cbn [trace open_conns].
  destruct (db_connect e) as [[]|m1] eqn:Hc.
  - destruct (db_execute e sql) as [[]|m2] eqn:Hx.
    + destruct (db_fetchall e sql) as [rows|m3] eqn:Hf.
      * do 2 eexists. split; [reflexivity|]. cbn [trace open_conns]. split.
        { rewrite <- !app_assoc, executor_args_app. reflexivity. }
        split; [reflexivity|].
        right. split; [reflexivity|]. exists rows. repeat split.
      * do 2 eexists. split; [reflexivity|]. cbn [trace open_conns]. split.
        { rewrite <- !app_assoc, executor_args_app. reflexivity. }
        split; [reflexivity|].
        left. split; [reflexivity|]. split; [now exists m3|].
        right. split; [reflexivity|]. exists m3. now right.
    + do 2 eexists. split; [reflexivity|]. cbn [trace open_conns]. split.
      { rewrite <- !app_assoc, executor_args_app. reflexivity. }
      split; [reflexivity|].
      left. split; [reflexivity|]. split; [now exists m2|].
      right. split; [reflexivity|]. exists m2. now left.
  - do 2 eexists. split; [reflexivity|]. cbn [trace open_conns]. split.
    { rewrite executor_args_app. reflexivity. }
    split; [reflexivity|].
    left. split; [reflexivity|]. split; [now exists m1|].
    left. now exists m1.
Qed.

Lemma rows_of_rows (read : nat) (rows : list (list (string * value))) :
  rows_of read (map VDict rows) = inl rows.
Proof.
  revert read. induction rows as [|r rows IH]; intros read; simpl;
    [reflexivity | now rewrite IH].
Qed.

(** On the rows of a successful execution [generate_answer] returns an
    answer, and it reaches neither the executor nor a connection. *)
Lemma generate_answer_spec (e : env) (question : string) (sql : value)
    (rows : list (list (string * value))) (w : world) :
  exists answer w',
    generate_answer e question sql (VList (map VDict rows)) w =
      (Ret answer, w') /\
    executor_args (trace w') = executor_args (trace w) /\
    open_conns w' = open_conns w.
Proof.
  unfold generate_answer. destruct rows as [|r rows].
  - do 2 eexists. repeat split.
  - cbn [truthy map negb]. rewrite <- (map_cons VDict), rows_of_rows.
    unfold try_except, mbind, M_bind, log, extern, mret, M_ret.
    destruct (chat_render e question sql _) as [content|msg];
      do 2 eexists; (split; [reflexivity|]); cbn [trace open_conns];
      rewrite executor_args_app, app_nil_r; split; reflexivity.
Qed.

Lemma bind_ret {A B} (f : A -> M B) (m : M A) (w w' : world) (a : A) :
  m w = (Ret a, w') -> (m ≫= f) w = f a w'.
Proof. unfold mbind, M_bind. now intros ->. Qed.

Lemma subscript_some (d : dict) (k : string) (v : value) (w : world) :
  d !! k = Some v -> subscript d k w = (Ret v, w).
Proof. unfold subscript. now intros ->. Qed.

(** The three ways in which [process_query] ends.  It never raises. *)
Lemma process_query_cases (e : env) (question : string) (w : world) :
  exists d w',
    process_query e question w = (Ret d, w') /\
    ((* the translation failed *)
     (exists err,
        d = dict_of [ ("success", VBool false); ("error", err);
                      ("stage", VStr "sql_generation") ] /\
        executor_args (trace w') = executor_args (trace w) /\
        open_conns w' = open_conns w /\
        forall kvs c, chat_translate e question = Ret (VDict kvs) ->
          dict_get (dict_of kvs) "sql" (VStr "") = VStr c ->
          validate_query (kw_order e) c <> (true, None))
     \/
     (* the translation gave an accepted candidate [c] *)
     (exists kvs c,
        chat_translate e question = Ret (VDict kvs) /\
        dict_get (dict_of kvs) "sql" (VStr "") = VStr c /\
        validate_query (kw_order e) c = (true, None) /\
        executor_args (trace w') =
          (executor_args (trace w) ++
           [VStr (sanitize_limit c DEFAULT_MAX_LIMIT)])%list /\
        ((exists err,
            d = dict_of [ ("success", VBool false); ("error", err);
                          ("sql", VStr (sanitize_limit c DEFAULT_MAX_LIMIT));
                          ("stage", VStr "execution") ])
         \/
         (exists assumptions confidence row_count data answer,
            open_conns w' = open_conns w /\
            d = dict_of [ ("success", VBool true);
                          ("query", VStr question);
                          ("sql", VStr (sanitize_limit c DEFAULT_MAX_LIMIT));
                          ("assumptions", assumptions);
                          ("confidence", confidence);
                          ("row_count", row_count);
                          ("data", data);
                          ("answer", answer);
                          ("stage", VStr "complete") ])))).
Proof.
  unfold process_query.
  destruct (generate_sql_spec e question w) as (g & Hg & [[Hfail Hrej]|Hgen]).
  - rewrite (bind_ret _ _ _ _ _ Hg), Hfail. cbn [negb].
    do 2 eexists. split; [reflexivity|]. left. eexists. split; [reflexivity|].
    cbn [trace open_conns]. rewrite executor_args_app, app_nil_r.
    repeat split. intros kvs c Hk Hc. now apply (Hrej kvs c).
  - destruct Hgen as (Hsucc & kvs & c & Hreply & Hcand & Hok & Hsql).
    rewrite (bind_ret _ _ _ _ _ Hg), Hsucc. cbn [negb].
    set (w1 := {| open_conns := open_conns w;
                  trace := trace w ++ [EvTranslate question] |}).
    rewrite (bind_ret _ _ _ _ _ (subscript_some _ _ _ w1 Hsql)).
    destruct (execute_query_spec e (VStr (sanitize_limit c DEFAULT_MAX_LIMIT)) w1)
      as (x & w2 & Hx & Hargs & Hout).
    assert (Hargs' : executor_args (trace w2) =
              (executor_args (trace w) ++
               [VStr (sanitize_limit c DEFAULT_MAX_LIMIT)])%list).
    { rewrite Hargs. subst w1. cbn [trace].
      now rewrite executor_args_app, app_nil_r. }
    rewrite (bind_ret _ _ _ _ _ Hx).
    destruct Hout as (Hopen & [(Hxf & _)|(Hxs & rows & _ & Hdata & Hcount)]).
    + rewrite Hxf. cbn [negb].
      do 2 eexists. split; [reflexivity|]. right. exists kvs, c.
      repeat split; try assumption. left. eexists. reflexivity.
    + rewrite Hxs. cbn [negb].
      rewrite (bind_ret _ _ _ _ _ (subscript_some _ _ _ w2 Hdata)).
      destruct (generate_answer_spec e question
                  (VStr (sanitize_limit c DEFAULT_MAX_LIMIT)) rows w2)
        as (answer & w3 & Ha & Hargs3 & Hopen3).
      rewrite (bind_ret _ _ _ _ _ Ha).
      rewrite (bind_ret _ _ _ _ _ (subscript_some _ _ _ w3 Hcount)).
      rewrite (bind_ret _ _ _ _ _ (subscript_some _ _ _ w3 Hdata)).
      do 2 eexists. split; [reflexivity|]. right. exists kvs, c.
      repeat split; try assumption; [congruence|].
      right. do 5 eexists. split; [|reflexivity].
      rewrite Hopen3, Hopen. reflexivity.
Qed.

(** C6: every call of [process_query] returns a result, and the result has
    one stage tag, one of sql_generation, execution and complete, with
    success true exactly when the stage is complete. *)
Theorem process_query_stage (e : env) (question : string) (w : world) :
  exists d stage success,
    (process_query e question w).1 = Ret d /\
    d !! "stage" = Some (VStr stage) /\
    (stage = "sql_generation" \/ stage = "execution" \/ stage = "complete") /\
    d !! "success" = Some (VBool success) /\
    (success = true <-> stage = "complete").
Proof.
  destruct (process_query_cases e question w) as (d & w' & Hrun & Hcases).
  rewrite Hrun. exists d.
  destruct Hcases as [(err & -> & _)|(kvs & c & _ & _ & _ & _ & Hend)].
  - exists "sql_generation", false. repeat split; auto; discriminate.
  - destruct Hend as [(err & ->)|(a & b & n & x & y & _ & ->)].
    + exists "execution", false. repeat split; auto; discriminate.
    + exists "complete", true. repeat split; auto.
Qed.

(** C1, as the code has it: [process_query] calls [execute_query] at most
    once, and what it hands to it is the normalized text [sanitize_limit c]
    of a candidate [c] that [validate_query] accepted; when the candidate is
    rejected the executor is not called. *)
Theorem executor_gets_normalized_accepted_sql
    (e : env) (question : string) (w : world) :
  exists handed,
    executor_args (trace (process_query e question w).2) =
      (executor_args (trace w) ++ handed)%list /\
    length handed <= 1 /\
    Forall
      (fun v => exists kvs c,
         chat_translate e question = Ret (VDict kvs) /\
         dict_get (dict_of kvs) "sql" (VStr "") = VStr c /\
         validate_query (kw_order e) c = (true, None) /\
         v = VStr (sanitize_limit c DEFAULT_MAX_LIMIT))
      handed /\
    (forall kvs c,
       chat_translate e question = Ret (VDict kvs) ->
       dict_get (dict_of kvs) "sql" (VStr "") = VStr c ->
       validate_query (kw_order e) c <> (true, None) ->
       handed = nil).
Proof.
  destruct (process_query_cases e question w) as (d & w' & Hrun & Hcases).
  rewrite Hrun. cbn [snd].
  destruct Hcases as [(err & _ & Hargs & _)
                     |(kvs & c & Hreply & Hcand & Hok & Hargs & _)].
  - exists nil. rewrite app_nil_r. repeat split; auto.
  - exists [VStr (sanitize_limit c DEFAULT_MAX_LIMIT)].
    split; [exact Hargs|]. split; [reflexivity|]. split.
    + constructor; [|constructor]. now exists kvs, c.
    + intros kvs' c' Hreply' Hcand' Hrej. same_candidate. contradiction.
Qed.

(** A run in which the text handed to the executor is one that
    [validate_query] rejects: the candidate is accepted, and the clause
    appended to it brings a second semicolon. *)
Lemma executor_gets_rejected_text :
  executor_args
    (trace (process_query (sample_env "SELECT ';' AS sep FROM quotes" (Ret tt))
              "which separator" world0).2) =
    [VStr "SELECT ';' AS sep FROM quotes LIMIT 1000;"] /\
  validate_query FORBIDDEN_KEYWORDS "SELECT ';' AS sep FROM quotes LIMIT 1000;" =
    (false, Some "Multiple statements not allowed").
Proof. split; reflexivity. Qed.



(** The run that the specification's error path describes: the store
    refuses the statement, the call returns the error dict, no close call is
    made, and no connection is left open. *)
Example store_refuses_statement :
  let e := sample_env "SELECT * FROM no_such_table"
             (Raise "relation no_such_table does not exist") in
  execute_query e (VStr "SELECT * FROM no_such_table LIMIT 1000;") world0 =
    (Ret (dict_of [ ("success", VBool false);
                    ("data", VNone);
                    ("row_count", VInt 0);
                    ("error", VStr "relation no_such_table does not exist") ]),
     {| open_conns := 0;
        trace :=
          [ EvExecuteQuery (VStr "SELECT * FROM no_such_table LIMIT 1000;");
            EvConnect;
            EvExecute (VStr "SELECT * FROM no_such_table LIMIT 1000;");
            EvConnDealloc ] |}).
Proof. reflexivity. Qed.

(** C5 at its failing input: the translator's result carries the rejected
    candidate under ["sql"], and the result of [process_query] has the stage
    and the error but no ["sql"] entry. *)
Theorem rejected_sql_not_reported :
  let e := sample_env "DROP TABLE vehicle_cards" (Ret tt) in
  (generate_sql e "remove all vehicles" world0).1 =
    Ret (dict_of
      [ ("success", VBool false);
        ("error", VStr "Generated SQL failed validation: Forbidden operation detected: DROP");
        ("sql", VStr "DROP TABLE vehicle_cards") ]) /\
  (process_query e "remove all vehicles" world0).1 =
    Ret (dict_of
      [ ("success", VBool false);
        ("error", VStr "Generated SQL failed validation: Forbidden operation detected: DROP");
        ("stage", VStr "sql_generation") ]) /\
  dict_of
    [ ("success", VBool false);
      ("error", VStr "Generated SQL failed validation: Forbidden operation detected: DROP");
      ("stage", VStr "sql_generation") ] !! "sql" = None.
Proof. repeat split. Qed.

(** Whenever the candidate is rejected, the result of [process_query] has no
    ["sql"] entry, although [generate_sql] returned the candidate. *)
Lemma sql_generation_failure_has_no_sql
    (e : env) (question : string) (w : world)
    (kvs : list (string * value)) (c : string) :
  chat_translate e question = Ret (VDict kvs) ->
  dict_get (dict_of kvs) "sql" (VStr "") = VStr c ->
  validate_query (kw_order e) c <> (true, None) ->
  exists g d,
    (generate_sql e question w).1 = Ret g /\ g !! "sql" = Some (VStr c) /\
    (process_query e question w).1 = Ret d /\
    d !! "stage" = Some (VStr "sql_generation") /\ d !! "sql" = None.
Proof.
  intros Hreply Hcand Hrej.
  destruct (generate_sql_spec e question w) as (g & Hg & [[_ Hf]|Hs]).
  - destruct (Hf kvs c Hreply Hcand) as [_ Hsql].
    destruct (process_query_cases e question w) as (d & w' & Hrun & Hcases).
    exists g, d. rewrite Hg, Hrun. repeat split; [exact Hsql| |].
    + destruct Hcases as [(err & -> & _)|(kvs' & c' & Hr' & Hc' & Hok & _)];
        [reflexivity | same_candidate; contradiction].
    + destruct Hcases as [(err & -> & _)|(kvs' & c' & Hr' & Hc' & Hok & _)];
        [reflexivity | same_candidate; contradiction].
  - destruct Hs as (_ & kvs' & c' & Hr' & Hc' & Hok & _).
    same_candidate. contradiction.
Qed.

End Pipeline.

(** ** Scenarios *)

Section Scenarios.

(** Without rows the answer is the fixed message, and no service is asked. *)
Lemma generate_answer_no_rows (e : env) (question : string) (sql : value)
    (w : world) :
  generate_answer e question sql (VList nil) w =
    (Ret (VStr "No results found for your query."), w).
Proof. reflexivity. Qed.

(** One row with one field, the rendering service down: the fallback. *)
Example fallback_single_value :
  (generate_answer (sample_env "SELECT COUNT(*) FROM repairs" (Ret tt))
     "how many repairs" (VStr "SELECT COUNT(*) FROM repairs LIMIT 1000;")
     (VList [VDict [("count", VInt 5)]]) world0).1 =
    Ret (VStr "Result: 5").
Proof. reflexivity. Qed.

(** A complete run: the candidate is accepted, capped, executed, answered. *)
Example complete_run :
  (process_query (sample_env "SELECT COUNT(*) FROM repairs" (Ret tt))
     "how many repairs" world0).1 =
    Ret (dict_of
      [ ("success", VBool true);
        ("query", VStr "how many repairs");
        ("sql", VStr "SELECT COUNT(*) FROM repairs LIMIT 1000;");
        ("assumptions", VList [VStr "last 30 days"]);
        ("confidence", VFloat (9 # 10));
        ("row_count", VInt 1);
        ("data", VList [VDict [("count", VInt 5)]]);
        ("answer", VStr "Result: 5");
        ("stage", VStr "complete") ]).
Proof. reflexivity. Qed.

(** The store refuses a validated query: the failure names the stage and
    the statement that was tried. *)
Example store_error_run :
  (process_query (sample_env "SELECT * FROM quotes" (Raise "connection reset"))
     "all quotes" world0).1 =
    Ret (dict_of
      [ ("success", VBool false);
        ("error", VStr "connection reset");
        ("sql", VStr "SELECT * FROM quotes LIMIT 1000;");
        ("stage", VStr "execution") ]).
Proof. reflexivity. Qed.

(** A reply that is no JSON object, and a reply without text under "sql". *)
Example reply_not_an_object :
  (generate_sql
     {| kw_order := FORBIDDEN_KEYWORDS;
        chat_translate := fun _ => Ret (VList [VStr "SELECT 1"]);
        db_connect := Ret tt;
        db_execute := fun _ => Ret tt;
        db_fetchall := fun _ => Ret nil;
        chat_render := fun _ _ _ => Raise "down";
        py_str := fun _ => "" |} "anything" world0).1 =
    Ret (dict_of
      [ ("success", VBool false);
        ("error", VStr "Failed to generate SQL: 'list' object has no attribute 'get'");
        ("sql", VNone) ]).
Proof. reflexivity. Qed.

End Scenarios.

(** * Further properties of the validator *)

Section LetterCase.

Lemma upper_char_idem (c : ascii) : upper_char (upper_char c) = upper_char c.
Proof. destruct c as [[] [] [] [] [] [] [] []]; reflexivity. Qed.

Lemma upper_idem (s : string) : upper (upper s) = upper s.
Proof.
  induction s as [|c s IH]; simpl; [reflexivity|].
  now rewrite upper_char_idem, IH.
Qed.

Lemma is_space_upper (c : ascii) : is_space (upper_char c) = is_space c.
Proof. destruct c as [[] [] [] [] [] [] [] []]; reflexivity. Qed.

Lemma semicolon_upper (c : ascii) :
  Ascii.eqb (upper_char c) ";" = Ascii.eqb c ";".
Proof. destruct c as [[] [] [] [] [] [] [] []]; reflexivity. Qed.

Lemma newline_upper (c : ascii) :
  Ascii.eqb (upper_char c) "010" = Ascii.eqb c "010".
Proof. destruct c as [[] [] [] [] [] [] [] []]; reflexivity. Qed.

Lemma count_semicolons_upper (s : string) :
  count_char ";" (upper s) = count_char ";" s.
Proof.
  induction s as [|c s IH]; simpl; [reflexivity|].
  now rewrite semicolon_upper, IH.
Qed.

Lemma atom_match_upper (a : atom) (c : ascii) :
  atom_match a (upper_char c) = atom_match a c.
Proof.
  destruct a; simpl.
  - now rewrite upper_char_idem.
  - apply is_space_upper.
  - now rewrite newline_upper.
Qed.

Lemma match_here_upper (r : regex) (s : string) :
  match_here r (upper s) = match_here r s.
Proof.
  revert s. induction r as [|[a []] r IH]; intros s; [reflexivity| |].
  - destruct s as [|c s]; [reflexivity|].
    cbn [upper]. rewrite !match_here_one. now rewrite atom_match_upper, IH.
  - induction s as [|c s IHs]; [reflexivity|].
    + cbn [upper].
      rewrite (match_here_star a r (String _ (upper s))),
        (match_here_star a r (String c s)).
      rewrite atom_match_upper, IHs.
      change (String (upper_char c) (upper s)) with (upper (String c s)).
      now rewrite IH.
Qed.

Lemma search_upper (r : regex) (s : string) :
  search r (upper s) = search r s.
Proof.
  induction s as [|c s IH].
  - reflexivity.
  - cbn [upper search]. rewrite IH.
    change (String (upper_char c) (upper s)) with (upper (String c s)).
    now rewrite match_here_upper.
Qed.

Lemma re_search_upper (pattern s : string) :
  re_search pattern (upper s) = re_search pattern s.
Proof. unfold re_search. destruct (compile pattern); [apply search_upper | reflexivity]. Qed.

Lemma first_hit_ext {A} (p p' : A -> bool) (l : list A) :
  (forall x, p x = p' x) -> first_hit p l = first_hit p' l.
Proof.
  intros H. induction l as [|x l IH]; simpl; [reflexivity|].
  now rewrite H, IH.
Qed.

Lemma validate_query_upper (kws : list string) (query : string) :
  validate_query kws (upper query) = validate_query kws query.
Proof.
  unfold validate_query. rewrite upper_idem, count_semicolons_upper.
  now rewrite (first_hit_ext (fun pattern => re_search pattern (upper query))
                 (fun pattern => re_search pattern query))
    by (intros p; apply re_search_upper).
Qed.

(** X1: the verdict of [validate_query], reason included, does not depend on
    the letter case of a query of ASCII characters: two such queries that
    differ in letter case only get the same verdict. *)
Theorem verdict_ignores_letter_case (kws : list string) (q1 q2 : string) :
  isascii q1 = true -> isascii q2 = true ->
  upper q1 = upper q2 ->
  validate_query kws q1 = validate_query kws q2.
Proof.
  intros _ _ H. rewrite <- (validate_query_upper kws q1), H.
  apply validate_query_upper.
Qed.

Lemma verdict_ignores_letter_case_witness :
  validate_query FORBIDDEN_KEYWORDS "Select Model From Vehicle_Cards" =
  validate_query FORBIDDEN_KEYWORDS "SELECT model FROM vehicle_cards".
Proof.
  apply (verdict_ignores_letter_case FORBIDDEN_KEYWORDS
           "Select Model From Vehicle_Cards" "SELECT model FROM vehicle_cards");
    reflexivity.
Defined.

End LetterCase.

Section Accepted.

Lemma upper_split (q a b : string) :
  upper q = a ++ b ->
  exists qa qb, q = qa ++ qb /\ upper qa = a /\ upper qb = b.
Proof.
  revert q. induction a as [|x a IH]; intros q H.
  - now exists "", q.
  - destruct q as [|c q]; [discriminate|].
    simpl in H. injection H as Hc Hq.
    destruct (IH _ Hq) as (qa & qb & -> & Ha & Hb).
    exists (String c qa), qb. simpl. now rewrite Hc, Ha.
Qed.

Lemma blanks_upper (w : string) :
  forall_chars is_space (upper w) = forall_chars is_space w.
Proof.
  induction w as [|c w IH]; simpl; [reflexivity|].
  now rewrite is_space_upper, IH.
Qed.

(** A text that starts, after blanks, with SELECT in upper case starts,
    after the same number of blanks, with SELECT in some letter case. *)
Lemma shape_check_any_case (q : string) :
  startswith "SELECT" (strip (upper q)) = true <->
  exists blanks select rest,
    q = blanks ++ select ++ rest /\
    forall_chars is_space blanks = true /\ upper select = "SELECT".
Proof.
  rewrite shape_check_spec. split.
  - intros (w & z & Hq & Hw).
    apply upper_split in Hq as (blanks & tail & -> & <- & Htail).
    apply upper_split in Htail as (select & rest & -> & Hs & _).
    exists blanks, select, rest. now rewrite <- blanks_upper.
  - intros (blanks & select & rest & -> & Hb & Hs).
    exists (upper blanks), (upper rest).
    now rewrite !upper_app, Hs, blanks_upper.
Qed.

(** A scan that finds no keyword of the set: no keyword occurs in the text in
    any letter case. *)
Lemma scan_none_no_token (kws : list string) (q : string) :
  Permutation kws FORBIDDEN_KEYWORDS ->
  first_hit (fun keyword => contains keyword (upper q)) kws = None ->
  forall token before word after,
    In token FORBIDDEN_KEYWORDS ->
    q = before ++ word ++ after -> upper word <> token.
Proof.
  intros Hperm Hnone token before word after Htok -> Hword.
  rewrite first_hit_none, Forall_forall in Hnone.
  assert (Hin : token ∈ kws) by (rewrite Hperm; now apply list_elem_of_In).
  specialize (Hnone _ Hin). cbv beta in Hnone.
  now rewrite !upper_app, Hword, contains_middle in Hnone.
Qed.

(** A keyword found by the scan occurs in the text in some letter case. *)
Lemma scan_hit_token (k q : string) :
  contains k (upper q) = true ->
  exists before word after, q = before ++ word ++ after /\ upper word = k.
Proof.
  intros (a & b & Hq)%contains_split.
  apply upper_split in Hq as (before & tail & -> & _ & Htail).
  apply upper_split in Htail as (word & after & -> & Hw & _).
  now exists before, word, after.
Qed.

(** X2: when a query is accepted.  In a process whose keyword set is the
    configured one, [validate_query] accepts a query of ASCII characters
    exactly when the query consists of blanks, the word SELECT in some letter case and a rest; has
    at most one semicolon; has no part whose upper-case form is a token of
    the forbidden set as listed; and is matched by no injection pattern. *)
Theorem acceptance_criterion (kws : list string) (query : string) :
  Permutation kws FORBIDDEN_KEYWORDS ->
  isascii query = true ->
  (validate_query kws query = (true, None) <->
   (exists blanks select rest,
      query = blanks ++ select ++ rest /\
      forall_chars is_space blanks = true /\ upper select = "SELECT") /\
   count_char ";" query <= 1 /\
   (forall token before word after,
      In token FORBIDDEN_KEYWORDS ->
      query = before ++ word ++ after -> upper word <> token) /\
   (forall pattern, In pattern injection_patterns ->
      re_search pattern query = false)).
Proof.
  intros Hperm _. rewrite validate_query_accepted_iff. split.
  - intros (Hkw & Hshape & Hcount & Hinj). repeat split.
    + now apply shape_check_any_case.
    + exact Hcount.
    + now apply (scan_none_no_token kws).
    + intros pattern Hp. rewrite first_hit_none, Forall_forall in Hinj.
      apply Hinj. now apply list_elem_of_In.
  - intros (Hshape & Hcount & Htok & Hpat). repeat split.
    + rewrite first_hit_none, Forall_forall. intros k Hk.
      destruct (contains k (upper query)) eqn:E; [exfalso | reflexivity].
      apply scan_hit_token in E as (before & word & after & Hq & Hw).
      apply (Htok k before word after); [|exact Hq | exact Hw].
      apply list_elem_of_In. now rewrite <- Hperm.
    + now apply shape_check_any_case.
    + exact Hcount.
    + rewrite first_hit_none, Forall_forall. intros p Hp.
      apply Hpat. now apply list_elem_of_In.
Qed.

Lemma acceptance_criterion_witness :
  count_char ";" "  select model from vehicle_cards;" <= 1.
Proof.
  apply (acceptance_criterion FORBIDDEN_KEYWORDS
           "  select model from vehicle_cards;" (Permutation_refl _) eq_refl).
  reflexivity.
Defined.

(** X3: the forbidden-operation reason.  In a process whose keyword set is
    the configured one, [validate_query] rejects a query of ASCII characters
    with "Forbidden
    operation detected: " and a keyword exactly when some part of the query
    has a token of the set as its upper-case form; the keyword named is a
    token of the set that occurs so (the first one in the iteration order). *)
Theorem forbidden_reason_iff (kws : list string) (query : string) :
  Permutation kws FORBIDDEN_KEYWORDS ->
  isascii query = true ->
  ((exists keyword,
      validate_query kws query =
        (false, Some ("Forbidden operation detected: " ++ keyword)))
   <->
   (exists token before word after,
      In token FORBIDDEN_KEYWORDS /\
      query = before ++ word ++ after /\ upper word = token)) /\
  (forall keyword,
     validate_query kws query =
       (false, Some ("Forbidden operation detected: " ++ keyword)) ->
     In keyword FORBIDDEN_KEYWORDS /\
     exists before word after,
       query = before ++ word ++ after /\ upper word = keyword).
Proof.
  intros Hperm _.
  assert (Hnamed : forall keyword,
            validate_query kws query =
              (false, Some ("Forbidden operation detected: " ++ keyword)) ->
            In keyword FORBIDDEN_KEYWORDS /\
            exists before word after,
              query = before ++ word ++ after /\ upper word = keyword).
  { intros keyword. unfold validate_query.
    destruct (first_hit _ kws) as [k|] eqn:Ek.
    - intros [= Hk]. apply first_hit_some in Ek as [Hin Hc].
      assert (k = keyword) as <-.
      { revert Hk. generalize "Forbidden operation detected: ".
        intros p. induction p as [|x p IHp]; simpl; [auto|].
        intros [= H]. auto. }
      split; [|now apply scan_hit_token].
      apply list_elem_of_In. rewrite <- Hperm. now apply list_elem_of_In.
    - destruct (negb _); [discriminate|].
      destruct (_ <? _)%nat; [discriminate|].
      destruct (first_hit _ injection_patterns); discriminate. }
  split; [split|exact Hnamed].
  - intros [keyword Hk]. destruct (Hnamed _ Hk) as (Hin & b & wd & a & Hq & Hw).
    now exists keyword, b, wd, a.
  - intros (token & before & word & after & Hin & Hq & Hw).
    destruct (upper_case_token_rejected kws query before word after token
                Hperm Hin Hq Hw) as (found & _ & _ & Hv).
    now exists found.
Qed.

Lemma forbidden_reason_iff_witness :
  exists keyword,
    validate_query FORBIDDEN_KEYWORDS "SELECT 1 UnIoN SELECT 2" =
      (false, Some ("Forbidden operation detected: " ++ keyword)).
Proof.
  apply (forbidden_reason_iff FORBIDDEN_KEYWORDS "SELECT 1 UnIoN SELECT 2"
           (Permutation_refl _) eq_refl).
  exists "UNION", "SELECT 1 ", "UnIoN", " SELECT 2".
  repeat split. simpl. tauto.
Defined.

End Accepted.

(** * Further properties of the row cap *)

Section Semicolons.

Lemma rstrip_where_all (p : ascii -> bool) (t : string) :
  forall_chars p t = true -> rstrip_where p t = "".
Proof.
  induction t as [|c t IH]; simpl; [reflexivity|].
  intros [Hc Ht]%andb_prop. now rewrite (IH Ht), Hc.
Qed.

Lemma rstrip_where_app_all (p : ascii -> bool) (s t : string) :
  forall_chars p t = true -> rstrip_where p (s ++ t) = rstrip_where p s.
Proof.
  intros Ht. induction s as [|c s IH]; simpl.
  - now apply rstrip_where_all.
  - now rewrite IH.
Qed.

Lemma limit_after_semicolons (q sem : string) :
  forall_chars (fun c => mem_char c ";") sem = true ->
  contains "LIMIT" (upper (q ++ sem)) = contains "LIMIT" (upper q).
Proof.
  intros Hsem. rewrite upper_app, (semicolons_upper _ Hsem).
  destruct sem as [|c sem]; [now rewrite append_empty_r|].
  simpl in Hsem. rewrite orb_false_r in Hsem.
  apply andb_prop in Hsem as [->%Ascii.eqb_eq Hsem].
  rewrite contains_sep by (reflexivity || discriminate).
  rewrite (contains_first_char "L" "IMIT" sem); [apply orb_false_r|].
  now apply (forall_chars_not_mem (fun c => mem_char c ";")).
Qed.

Lemma endswith_app_r (p x : string) : endswith p (x ++ p) = true.
Proof.
  induction x as [|c x IH]; [|now apply endswith_cons].
  simpl (_ ++ _). destruct p; simpl; now rewrite ?String.eqb_refl, ?Ascii.eqb_refl.
Qed.

(** X4: trailing semicolons do not count: on a query of ASCII characters
    without LIMIT, [sanitize_limit] gives the same text whether the query ends in no, one or
    several semicolons, and that text has exactly one at its end. *)
Theorem trailing_semicolons_collapse (query sem : string) (cap : Z) :
  isascii query = true ->
  contains "LIMIT" (upper query) = false ->
  forall_chars (fun c => mem_char c ";") sem = true ->
  sanitize_limit (query ++ sem) cap = sanitize_limit query cap /\
  endswith (str_of_int cap ++ ";") (sanitize_limit (query ++ sem) cap) = true.
Proof.
  intros _ Hno Hsem.
  assert (Heq : sanitize_limit (query ++ sem) cap = sanitize_limit query cap).
  { rewrite !sanitize_limit_absent;
      [|assumption | now rewrite limit_after_semicolons].
    unfold rstrip. now rewrite rstrip_where_app_all. }
  split; [exact Heq|]. rewrite Heq, (sanitize_limit_absent _ _ Hno).
  change (" LIMIT " ++ str_of_int cap ++ ";")
    with (" LIMIT " ++ (str_of_int cap ++ ";")).
  rewrite <- append_assoc3. apply endswith_app_r.
Qed.

Lemma trailing_semicolons_collapse_witness :
  sanitize_limit ("select 1" ++ ";;;") 10 = sanitize_limit "select 1" 10.
Proof.
  apply (trailing_semicolons_collapse "select 1" ";;;" 10); reflexivity.
Defined.

End Semicolons.

(** * Further properties of the translator's reply handling *)

Section Reply.

Lemma generate_sql_accepted_run (e : env) (question : string) (w : world)
    (kvs : list (string * value)) (c : string) :
  chat_translate e question = Ret (VDict kvs) ->
  dict_get (dict_of kvs) "sql" (VStr "") = VStr c ->
  validate_query (kw_order e) c = (true, None) ->
  generate_sql e question w =
    (Ret (<["success" := VBool true]>
            (<["sql" := VStr (sanitize_limit c DEFAULT_MAX_LIMIT)]>
               (dict_of kvs))),
     translated question w).
Proof.
  intros Hreply Hcand Hok.
  unfold generate_sql, try_except, mbind, M_bind, log, extern, mret, M_ret.
  now rewrite Hreply, Hcand, Hok.
Qed.

Lemma generate_sql_rejected_run (e : env) (question : string) (w : world)
    (kvs : list (string * value)) (c reason : string) :
  chat_translate e question = Ret (VDict kvs) ->
  dict_get (dict_of kvs) "sql" (VStr "") = VStr c ->
  validate_query (kw_order e) c = (false, Some reason) ->
  generate_sql e question w =
    (Ret (dict_of
       [ ("success", VBool false);
         ("error", VStr ("Generated SQL failed validation: " ++ reason));
         ("sql", VStr c) ]),
     translated question w).
Proof.
  intros Hreply Hcand Hrej.
  unfold generate_sql, try_except, mbind, M_bind, log, extern, mret, M_ret.
  now rewrite Hreply, Hcand, Hrej.
Qed.

(** X5: a reply that is a JSON object without an ["sql"] entry is handled as
    the empty candidate: [generate_sql] returns the failure dict whose error
    is the validator's "Query must start with SELECT" and whose ["sql"] is
    the empty string; it does not raise. *)
Theorem generate_sql_missing_sql_key (e : env) (question : string) (w : world)
    (kvs : list (string * value)) :
  Permutation (kw_order e) FORBIDDEN_KEYWORDS ->
  chat_translate e question = Ret (VDict kvs) ->
  dict_of kvs !! "sql" = None ->
  generate_sql e question w =
    (Ret (dict_of
       [ ("success", VBool false);
         ("error", VStr "Generated SQL failed validation: Query must start with SELECT");
         ("sql", VStr "") ]),
     translated question w).
Proof.
  intros Hperm Hreply Hmiss.
  apply (generate_sql_rejected_run e question w kvs "" "Query must start with SELECT");
    [exact Hreply | unfold dict_get; now rewrite Hmiss |].
  now rewrite (validate_query_order _ FORBIDDEN_KEYWORDS "" Hperm).
Qed.

Lemma generate_sql_missing_sql_key_witness :
  generate_sql (bare_env (Ret (VDict [("query", VStr "SELECT 1")])))
    "count repairs" world0 =
    (Ret (dict_of
       [ ("success", VBool false);
         ("error", VStr "Generated SQL failed validation: Query must start with SELECT");
         ("sql", VStr "") ]),
     translated "count repairs" world0).
Proof.
  apply (generate_sql_missing_sql_key
           (bare_env (Ret (VDict [("query", VStr "SELECT 1")])))
           "count repairs" world0 [("query", VStr "SELECT 1")]
           (Permutation_refl _) eq_refl eq_refl).
Defined.

(** X6: [generate_sql] turns every failure before validation into a failure
    dict with ["sql"] None and does not raise: an exception of the service or
    of [json.loads] gives "Failed to generate SQL: " followed by its message;
    a reply that is no JSON object, or whose ["sql"] is no string, gives the
    message of the attribute error on [get], respectively on [upper]. *)
Theorem generate_sql_unusable_reply (e : env) (question : string) (w : world) :
  let failure msg :=
    (Ret (dict_of [ ("success", VBool false);
                    ("error", VStr ("Failed to generate SQL: " ++ msg));
                    ("sql", VNone) ]),
     translated question w) in
  (forall msg,
     chat_translate e question = Raise msg ->
     generate_sql e question w = failure msg) /\
  (forall reply,
     chat_translate e question = Ret reply ->
     (forall kvs, reply <> VDict kvs) ->
     generate_sql e question w =
       failure ("'" ++ type_name reply ++ "' object has no attribute 'get'")) /\
  (forall kvs sql,
     chat_translate e question = Ret (VDict kvs) ->
     dict_get (dict_of kvs) "sql" (VStr "") = sql ->
     (forall c, sql <> VStr c) ->
     generate_sql e question w =
       failure ("'" ++ type_name sql ++ "' object has no attribute 'upper'")).
Proof.
  cbv zeta.
  unfold generate_sql, try_except, mbind, M_bind, log, extern,
    attribute_error, raise, mret, M_ret.
  repeat split.
  - now intros msg ->.
  - intros reply -> Hno. destruct reply; try reflexivity.
    now destruct (Hno kvs).
  - intros kvs sql -> -> Hno.
    destruct sql as [| | | |c| |]; try reflexivity.
    now destruct (Hno c).
Qed.

(** X7: on an accepted candidate [generate_sql] returns the reply itself with
    two entries set: ["success"] is True and ["sql"] is the normalized
    candidate.  Every other entry of the reply (explanation, assumptions,
    confidence, anything else) is returned as it came. *)
Theorem generate_sql_keeps_reply_fields (e : env) (question : string)
    (w : world) (kvs : list (string * value)) (c : string) :
  chat_translate e question = Ret (VDict kvs) ->
  dict_get (dict_of kvs) "sql" (VStr "") = VStr c ->
  validate_query (kw_order e) c = (true, None) ->
  exists d,
    generate_sql e question w = (Ret d, translated question w) /\
    d !! "success" = Some (VBool true) /\
    d !! "sql" = Some (VStr (sanitize_limit c DEFAULT_MAX_LIMIT)) /\
    (forall k, k <> "sql" -> k <> "success" -> d !! k = dict_of kvs !! k).
Proof.
  intros Hreply Hcand Hok. eexists. split.
  - now apply (generate_sql_accepted_run e question w kvs c).
  - repeat split.
    + apply lookup_insert_eq.
    + rewrite lookup_insert_ne by discriminate. apply lookup_insert_eq.
    + intros k H1 H2. now rewrite !lookup_insert_ne by congruence.
Qed.

Lemma generate_sql_keeps_reply_fields_witness :
  exists d,
    generate_sql (sample_env "SELECT 1" (Ret tt)) "one" world0 =
      (Ret d, translated "one" world0) /\
    d !! "confidence" = Some (VFloat (9 # 10)).
Proof.
  destruct (generate_sql_keeps_reply_fields (sample_env "SELECT 1" (Ret tt))
              "one" world0 _ "SELECT 1" eq_refl eq_refl eq_refl)
    as (d & Hrun & _ & _ & Hkeep).
  exists d. split; [exact Hrun|].
  rewrite (Hkeep "confidence") by discriminate. reflexivity.
Defined.

End Reply.

(** * Further properties of the executor *)

Section Executor.

Lemma execute_query_ok_run (e : env) (sql : value) (w : world)
    (rows : list (list (string * value))) :
  db_connect e = Ret tt -> db_execute e sql = Ret tt ->
  db_fetchall e sql = Ret rows ->
  execute_query e sql w =
    (Ret (dict_of
       [ ("success", VBool true);
         ("data", VList (map VDict rows));
         ("row_count", VInt (Z.of_nat (length rows)));
         ("error", VNone) ]),
     {| open_conns := open_conns w;
        trace := trace w ++
                 [ EvExecuteQuery sql; EvConnect; EvExecute sql; EvFetchall;
                   EvCursorClose; EvConnClose ] |}).
Proof.
  intros Hc Hx Hf.
  unfold execute_query, try_except, held_by_local, mbind, M_bind, log, extern,
    conn_opened, conn_closed, mret, M_ret.
  rewrite Hc, Hx, Hf. cbn [trace open_conns pred].
  rewrite length_map, <- !app_assoc. reflexivity.
Qed.

Lemma execute_query_error_run (e : env) (sql : value) (w : world)
    (msg : string) :
  store_error e sql = Some msg ->
  exists w',
    execute_query e sql w =
      (Ret (dict_of
         [ ("success", VBool false);
           ("data", VNone);
           ("row_count", VInt 0);
           ("error", VStr msg) ]), w') /\
    open_conns w' = open_conns w /\
    executor_args (trace w') = (executor_args (trace w) ++ [sql])%list.
Proof.
  unfold store_error, execute_query, try_except, held_by_local, mbind, M_bind,
    log, extern, conn_opened, conn_closed, mret, M_ret.
  destruct (db_connect e) as [[]|m1].
  - destruct (db_execute e sql) as [[]|m2].
    + destruct (db_fetchall e sql) as [rows|m3]; [discriminate|].
      intros [= ->]. eexists. split; [reflexivity|]. cbn [trace open_conns].
      split; [reflexivity|]. rewrite <- !app_assoc, executor_args_app.
      reflexivity.
    + intros [= ->]. eexists. split; [reflexivity|]. cbn [trace open_conns].
      split; [reflexivity|]. rewrite <- !app_assoc, executor_args_app.
      reflexivity.
  - intros [= ->]. eexists. split; [reflexivity|]. cbn [trace open_conns].
    split; [reflexivity|]. now rewrite executor_args_app.
Qed.

Lemma store_error_none (e : env) (sql : value) :
  store_error e sql = None ->
  db_connect e = Ret tt /\ db_execute e sql = Ret tt /\
  exists rows, db_fetchall e sql = Ret rows.
Proof.
  unfold store_error.
  destruct (db_connect e) as [[]|]; [|discriminate].
  destruct (db_execute e sql) as [[]|]; [|discriminate].
  destruct (db_fetchall e sql) as [rows|]; [|discriminate].
  intros _. repeat split. now exists rows.
Qed.

(** X8: [execute_query] never raises and returns one of two dicts.  When
    every store call returns: success True, ["data"] the rows in the order
    of the store, ["row_count"] their number, ["error"] None.  Otherwise:
    success False, ["data"] None, ["row_count"] 0 and ["error"] the message
    of the first store call that raised; no row is returned then, also when
    the failure comes after the statement ran. *)
Theorem execute_query_result_shape (e : env) (sql : value) (w : world) :
  exists d,
    (execute_query e sql w).1 = Ret d /\
    match store_error e sql with
    | Some msg =>
        d = dict_of [ ("success", VBool false); ("data", VNone);
                      ("row_count", VInt 0); ("error", VStr msg) ]
    | None =>
        exists rows,
          db_fetchall e sql = Ret rows /\
          d = dict_of [ ("success", VBool true);
                        ("data", VList (map VDict rows));
                        ("row_count", VInt (Z.of_nat (length rows)));
                        ("error", VNone) ]
    end.
Proof.
  destruct (store_error e sql) as [msg|] eqn:E.
  - destruct (execute_query_error_run e sql w msg E) as (w' & -> & _).
    now eexists.
  - destruct (store_error_none e sql E) as (Hc & Hx & rows & Hf).
    rewrite (execute_query_ok_run e sql w rows Hc Hx Hf).
    eexists. split; [reflexivity|]. now exists rows.
Qed.


End Executor.

(** * Further properties of the answer generator *)

Section Answer.

(** With two rows or more the fallback is the listing. *)
Lemma format_results_listing (str : value -> string) (query : string)
    (rows : list (list (string * value))) :
  2 <= length rows ->
  _format_results_simple str query rows =
    (let output :=
       "Found " ++ str_of_int (Z.of_nat (length rows)) ++ " results:" ++
       nl ++ nl in
     let output := output ++ numbered_rows str 1 (take 5 rows) in
     if (5 <? length rows)%nat then
       output ++ nl ++ "... and " ++
       str_of_int (Z.of_nat (length rows) - 5) ++ " more results"
     else output).
Proof.
  destruct rows as [|a [|b rows]]; intros H;
    [simpl in H; lia | simpl in H; lia |].
  destruct a as [|[k v] [|kv a]]; reflexivity.
Qed.

(** X10: the fallback answer shows the first five rows only.  Two result
    lists of the same length that agree on their first five rows get the
    same text, whatever the question; and with more than five rows the text
    ends in the count of the rows that are not shown. *)
Theorem fallback_shows_at_most_five_rows (str : value -> string)
    (query query' : string) (rows rows' : list (list (string * value))) :
  take 5 rows = take 5 rows' ->
  length rows = length rows' ->
  _format_results_simple str query rows =
    _format_results_simple str query' rows' /\
  (5 < length rows ->
   endswith ("... and " ++ str_of_int (Z.of_nat (length rows) - 5) ++
             " more results")
     (_format_results_simple str query rows) = true).
Proof.
  intros Htake Hlen. split.
  - destruct (le_lt_dec (length rows) 5) as [Hle|Hgt].
    + rewrite !take_ge in Htake by lia. now subst rows'.
    + rewrite !format_results_listing by lia. now rewrite Htake, Hlen.
  - intros Hgt. rewrite format_results_listing by lia. cbv zeta.
    apply Nat.ltb_lt in Hgt as ->.
    rewrite <- (append_assoc3 _ nl). apply endswith_app_r.
Qed.

Lemma fallback_shows_at_most_five_rows_witness :
  _format_results_simple (fun _ => "v") "first"
    [ [("a", VInt 1)]; [("a", VInt 2)]; [("a", VInt 3)]; [("a", VInt 4)];
      [("a", VInt 5)]; [("a", VInt 6)] ] =
  _format_results_simple (fun _ => "v") "second"
    [ [("a", VInt 1)]; [("a", VInt 2)]; [("a", VInt 3)]; [("a", VInt 4)];
      [("a", VInt 5)]; [("b", VNone); ("c", VStr "other")] ].
Proof.
  apply (fallback_shows_at_most_five_rows (fun _ => "v") "first" "second");
    reflexivity.
Defined.

(** What [generate_answer] returns on the rows of a successful execution. *)
Lemma generate_answer_run (e : env) (question : string) (sql : value)
    (rows : list (list (string * value))) (w : world) :
  generate_answer e question sql (VList (map VDict rows)) w =
    match rows with
    | nil => (Ret (VStr "No results found for your query."), w)
    | _ =>
        (Ret match chat_render e question sql (map VDict rows) with
             | Ret content => content
             | Raise _ =>
                 VStr (_format_results_simple (py_str e) question rows)
             end,
         {| open_conns := open_conns w;
            trace := trace w ++ [EvRender question] |})
    end.
Proof.
  unfold generate_answer. destruct rows as [|r rows]; [reflexivity|].
  cbn [truthy map negb]. rewrite <- (map_cons VDict), rows_of_rows.
  unfold try_except, mbind, M_bind, log, extern, mret, M_ret.
  now destruct (chat_render e question sql _).
Qed.

End Answer.

(** * Further properties of the pipeline *)

(** One step of a run: the first call of the sequence returns. *)
Ltac run_subscript :=
  erewrite bind_ret;
  [| apply subscript_some;
     first [ reflexivity
           | rewrite lookup_insert_ne by discriminate; apply lookup_insert_eq ] ].

Section Runs.

Lemma dict_get_reply_field (kvs : list (string * value)) (k : string)
    (sql : string) (default : value) :
  k <> "sql" -> k <> "success" ->
  dict_get (<["success" := VBool true]> (<["sql" := VStr sql]> (dict_of kvs)))
    k default =
  dict_get (dict_of kvs) k default.
Proof.
  intros H1 H2. unfold dict_get. now rewrite !lookup_insert_ne by congruence.
Qed.

(** X11: a complete run.  When the candidate is accepted and every store
    call returns, [process_query] returns success with the normalized
    candidate as ["sql"], the reply's assumptions and confidence (an empty
    list and 0.0 when the reply has none), the rows of the store as
    ["data"] and their number as ["row_count"].  The answer is the fixed
    message when there is no row, else the rendering service's text, else
    the fallback text.  The store connection is closed again, and the
    rendering service is asked only when there is a row. *)
Theorem complete_run_result (e : env) (question : string) (w : world)
    (kvs : list (string * value)) (c : string)
    (rows : list (list (string * value))) :
  let sql := VStr (sanitize_limit c DEFAULT_MAX_LIMIT) in
  chat_translate e question = Ret (VDict kvs) ->
  dict_get (dict_of kvs) "sql" (VStr "") = VStr c ->
  validate_query (kw_order e) c = (true, None) ->
  db_connect e = Ret tt ->
  db_execute e sql = Ret tt ->
  db_fetchall e sql = Ret rows ->
  exists answer,
    process_query e question w =
      (Ret (dict_of
         [ ("success", VBool true);
           ("query", VStr question);
           ("sql", sql);
           ("assumptions", dict_get (dict_of kvs) "assumptions" (VList nil));
           ("confidence", dict_get (dict_of kvs) "confidence" (VFloat 0));
           ("row_count", VInt (Z.of_nat (length rows)));
           ("data", VList (map VDict rows));
           ("answer", answer);
           ("stage", VStr "complete") ]),
       {| open_conns := open_conns w;
          trace := trace w ++
                   [ EvTranslate question; EvExecuteQuery sql; EvConnect;
                     EvExecute sql; EvFetchall; EvCursorClose; EvConnClose ] ++
                   match rows with
                   | nil => nil
                   | _ => [EvRender question]
                   end |}) /\
    (rows = nil -> answer = VStr "No results found for your query.") /\
    (rows <> nil ->
     answer =
       match chat_render e question sql (map VDict rows) with
       | Ret content => content
       | Raise _ => VStr (_format_results_simple (py_str e) question rows)
       end).
Proof.
  intros sql Hreply Hcand Hok Hc Hx Hf. unfold process_query.
  rewrite (bind_ret _ _ _ _ _
             (generate_sql_accepted_run e question w kvs c Hreply Hcand Hok)).
  replace (truthy (dict_get _ "success" VNone)) with true
    by (unfold dict_get; now rewrite lookup_insert_eq).
  cbn [negb].
  run_subscript.
  rewrite (bind_ret _ _ _ _ _
             (execute_query_ok_run e sql (translated question w) rows Hc Hx Hf)).
  cbn [negb truthy dict_get].
  replace (truthy (dict_get _ "success" VNone)) with true by reflexivity.
  cbn [negb].
  run_subscript.
  rewrite !dict_get_reply_field by discriminate.
  destruct rows as [|r rows].
  - eexists. split; [|split; [reflexivity | congruence]].
    rewrite (bind_ret _ _ _ _ _ (generate_answer_run e question sql nil _)).
    do 2 run_subscript.
    unfold mret, M_ret, translated. cbn [trace open_conns].
    rewrite <- !app_assoc. reflexivity.
  - eexists. split; [|split; [discriminate | reflexivity]].
    rewrite (bind_ret _ _ _ _ _
               (generate_answer_run e question sql (r :: rows) _)).
    do 2 run_subscript.
    unfold mret, M_ret, translated. cbn [trace open_conns].
    rewrite <- !app_assoc. reflexivity.
Qed.

Lemma complete_run_result_witness :
  exists answer,
    (process_query (sample_env "SELECT COUNT(*) FROM repairs" (Ret tt))
       "how many repairs" world0).1 =
      Ret (dict_of
         [ ("success", VBool true);
           ("query", VStr "how many repairs");
           ("sql", VStr "SELECT COUNT(*) FROM repairs LIMIT 1000;");
           ("assumptions", VList [VStr "last 30 days"]);
           ("confidence", VFloat (9 # 10));
           ("row_count", VInt 1);
           ("data", VList [VDict [("count", VInt 5)]]);
           ("answer", answer);
           ("stage", VStr "complete") ]).
Proof.
  destruct (complete_run_result
              (sample_env "SELECT COUNT(*) FROM repairs" (Ret tt))
              "how many repairs" world0 _ "SELECT COUNT(*) FROM repairs"
              [[("count", VInt 5)]]
              eq_refl eq_refl eq_refl eq_refl eq_refl eq_refl)
    as (answer & Hrun & _).
  exists answer. now rewrite Hrun.
Defined.



(** X13: a failed translation.  When the validator rejects the candidate
    with a reason, or the translation call raises, [process_query] returns
    success False with stage sql_generation and the error "Generated SQL
    failed validation: " followed by the reason, respectively "Failed to
    generate SQL: " followed by the message; and it has done nothing but ask
    the translation service: no connection, no statement, no rendering. *)
Theorem translation_failure_result (e : env) (question : string) (w : world) :
  (forall kvs c reason,
     chat_translate e question = Ret (VDict kvs) ->
     dict_get (dict_of kvs) "sql" (VStr "") = VStr c ->
     validate_query (kw_order e) c = (false, Some reason) ->
     process_query e question w =
       (Ret (dict_of
          [ ("success", VBool false);
            ("error", VStr ("Generated SQL failed validation: " ++ reason));
            ("stage", VStr "sql_generation") ]),
        translated question w)) /\
  (forall msg,
     chat_translate e question = Raise msg ->
     process_query e question w =
       (Ret (dict_of
          [ ("success", VBool false);
            ("error", VStr ("Failed to generate SQL: " ++ msg));
            ("stage", VStr "sql_generation") ]),
        translated question w)).
Proof.
  split.
  - intros kvs c reason Hreply Hcand Hrej. unfold process_query.
    now rewrite (bind_ret _ _ _ _ _
                   (generate_sql_rejected_run e question w kvs c reason
                      Hreply Hcand Hrej)).
  - intros msg Hraise. unfold process_query.
    assert (Hgen : generate_sql e question w =
              (Ret (dict_of [ ("success", VBool false);
                              ("error", VStr ("Failed to generate SQL: " ++ msg));
                              ("sql", VNone) ]),
               translated question w)).
    { unfold generate_sql, try_except, mbind, M_bind, log, extern, mret, M_ret.
      now rewrite Hraise. }
    now rewrite (bind_ret _ _ _ _ _ Hgen).
Qed.

(** X14: the entries of a result.  A result with success False has the
    entries ["error"] and ["stage"] and no ["data"], ["answer"] or
    ["row_count"]; a result with success True has ["sql"], ["row_count"],
    ["data"], ["answer"] and ["stage"] and no ["error"].  So the entries that
    [main] reads after testing ["success"] are always there. *)
Theorem result_entries (e : env) (question : string) (w : world) :
  exists d,
    (process_query e question w).1 = Ret d /\
    (d !! "success" = Some (VBool false) ->
     is_Some (d !! "error") /\ is_Some (d !! "stage") /\
     d !! "data" = None /\ d !! "answer" = None /\ d !! "row_count" = None) /\
    (d !! "success" = Some (VBool true) ->
     is_Some (d !! "sql") /\ is_Some (d !! "row_count") /\
     is_Some (d !! "data") /\ is_Some (d !! "answer") /\
     is_Some (d !! "stage") /\ d !! "error" = None).
Proof.
  destruct (process_query_cases e question w) as (d & w' & Hrun & Hcases).
  exists d. rewrite Hrun. split; [reflexivity|].
  destruct Hcases as [(err & -> & _)|(kvs & c & _ & _ & _ & _ & Hend)].
  - split; [|discriminate]. intros _. repeat split; eexists; reflexivity.
  - destruct Hend as [(err & ->)|(a & b & n & x & y & _ & ->)].
    + split; [|discriminate]. intros _. repeat split; eexists; reflexivity.
    + split; [discriminate|]. intros _. repeat split; eexists; reflexivity.
Qed.

End Runs.

(** * What reaches the executor *)

Section Safety.

Lemma sanitize_limit_has_limit (query : string) (cap : Z) :
  contains "LIMIT" (upper (sanitize_limit query cap)) = true.
Proof.
  destruct (contains "LIMIT" (upper query)) eqn:E.
  - now rewrite (sanitize_limit_present _ _ E).
  - rewrite (sanitize_limit_absent _ _ E), upper_limit_clause.
    apply contains_app_r. reflexivity.
Qed.

(** The forbidden-operation scan and the SELECT-start check still pass on
    the normalized text of an accepted query. *)
Lemma normalized_passes_scan_and_shape (kws : list string) (query : string) :
  Permutation kws FORBIDDEN_KEYWORDS ->
  validate_query kws query = (true, None) ->
  first_hit
    (fun keyword =>
       contains keyword (upper (sanitize_limit query DEFAULT_MAX_LIMIT)))
    kws = None /\
  startswith "SELECT" (strip (upper (sanitize_limit query DEFAULT_MAX_LIMIT)))
    = true.
Proof.
  intros Hperm (Hkw & Hshape & _ & _)%validate_query_accepted_iff.
  destruct (contains "LIMIT" (upper query)) eqn:E.
  - rewrite (sanitize_limit_present _ _ E). now split.
  - rewrite (sanitize_limit_absent _ _ E).
    fold (limit_clause DEFAULT_MAX_LIMIT). rewrite upper_app.
    change (upper (limit_clause DEFAULT_MAX_LIMIT))
      with (limit_clause DEFAULT_MAX_LIMIT).
    destruct (rstrip_where_split (fun c => mem_char c ";") query)
      as (sem & Hq & Hsem).
    fold (rstrip ";" query) in Hq. set (r := rstrip ";" query) in *.
    split.
    + apply forbidden_scan_appended; [exact Hperm|].
      rewrite first_hit_none, Forall_forall in *. intros k Hk.
      specialize (Hkw k Hk). rewrite Hq, upper_app in Hkw.
      destruct (contains k (upper r)) eqn:Ek; [|reflexivity].
      now rewrite (contains_app_l _ _ _ Ek) in Hkw.
    + rewrite Hq in Hshape. now apply (shape_check_appended r sem).
Qed.

(** X15: the statements that reach the executor.  In a process whose
    keyword set is the configured one, every text of ASCII characters that
    [process_query] hands to [execute_query] begins, after blanks, with
    SELECT in some letter case, contains LIMIT in some letter case, and has
    no part whose upper-case form is a token of the forbidden set as
    listed. *)
Theorem executed_sql_is_safe (e : env) (question : string) (w : world) :
  Permutation (kw_order e) FORBIDDEN_KEYWORDS ->
  exists handed,
    executor_args (trace (process_query e question w).2) =
      (executor_args (trace w) ++ handed)%list /\
    Forall
      (fun v => exists s,
         v = VStr s /\
         (isascii s = true ->
          contains "LIMIT" (upper s) = true /\
          (exists blanks select rest,
             s = blanks ++ select ++ rest /\
             forall_chars is_space blanks = true /\ upper select = "SELECT") /\
          (forall token before word after,
             In token FORBIDDEN_KEYWORDS ->
             s = before ++ word ++ after -> upper word <> token)))
      handed.
Proof.
  intros Hperm.
  destruct (process_query_cases e question w) as (d & w' & Hrun & Hcases).
  rewrite Hrun. cbn [snd].
  destruct Hcases as [(err & _ & Hargs & _)
                     |(kvs & c & _ & _ & Hok & Hargs & _)].
  - exists nil. rewrite app_nil_r. split; [exact Hargs | constructor].
  - exists [VStr (sanitize_limit c DEFAULT_MAX_LIMIT)].
    split; [exact Hargs|]. constructor; [|constructor].
    destruct (normalized_passes_scan_and_shape _ c Hperm Hok) as [Hscan Hshape].
    eexists. split; [reflexivity|]. intros _.
    split; [apply sanitize_limit_has_limit|]. split.
    + now apply shape_check_any_case.
    + now apply (scan_none_no_token (kw_order e)).
Qed.

Lemma executed_sql_is_safe_witness :
  exists s,
    executor_args
      (trace (process_query (sample_env "select 1" (Ret tt)) "one" world0).2) =
      [VStr s] /\
    contains "LIMIT" (upper s) = true.
Proof.
  destruct (executed_sql_is_safe (sample_env "select 1" (Ret tt)) "one" world0
              (Permutation_refl _)) as (handed & Hargs & Hsafe).
  vm_compute in Hargs. subst handed.
  apply Forall_cons in Hsafe as [(s & [= <-] & Hs) _].
  exists "select 1 LIMIT 1000;". split; [reflexivity|].
  now apply Hs.
Defined.

End Safety.

(** * Answers without the rendering service, and leading blanks *)

Section Fallback.

(** X16: answers that need no rendering service.  For a result that is
    empty or None, [generate_answer] returns the fixed message and asks no
    service.  When the service raises, the answer is the fallback text of
    the rows; for one row with one field that text is "Result: " followed by
    the field's value. *)
Theorem generate_answer_without_service (e : env) (question : string)
    (sql : value) (w : world) :
  (forall results,
     truthy results = false ->
     generate_answer e question sql results w =
       (Ret (VStr "No results found for your query."), w)) /\
  (forall rows msg,
     rows <> nil ->
     chat_render e question sql (map VDict rows) = Raise msg ->
     (generate_answer e question sql (VList (map VDict rows)) w).1 =
       Ret (VStr (_format_results_simple (py_str e) question rows))) /\
  (forall k v msg,
     chat_render e question sql [VDict [(k, v)]] = Raise msg ->
     (generate_answer e question sql (VList [VDict [(k, v)]]) w).1 =
       Ret (VStr ("Result: " ++ py_str e v))).
Proof.
  repeat split.
  - intros results Hf. unfold generate_answer. now rewrite Hf.
  - intros rows msg Hne Hr. rewrite generate_answer_run.
    destruct rows as [|r rows]; [congruence|]. now rewrite Hr.
  - intros k v msg Hr.
    change (VList [VDict [(k, v)]]) with (VList (map VDict [[(k, v)]])).
    rewrite (generate_answer_run e question sql [[(k, v)]] w).
    cbn [map]. now rewrite Hr.
Qed.

End Fallback.

Section LeadingBlanks.

Lemma first_hit_ext_in {A} (p p' : A -> bool) (l : list A) :
  (forall x, In x l -> p x = p' x) -> first_hit p l = first_hit p' l.
Proof.
  induction l as [|x l IH]; intros H; simpl; [reflexivity|].
  rewrite (H x) by (now left). rewrite IH; [reflexivity|].
  intros y Hy. apply H. now right.
Qed.

(** An occurrence cannot begin in a run of characters that differ from the
    needle's first character. *)
Lemma contains_after_run (p : ascii -> bool) (a : ascii) (k w y : string) :
  p a = false -> forall_chars p w = true ->
  contains (String a k) (w ++ y) = contains (String a k) y.
Proof.
  intros Ha. induction w as [|c w IH]; [reflexivity|].
  simpl. intros [Hc Hw]%andb_prop.
  destruct (Ascii.eqb_spec a c) as [->|_]; [congruence|].
  simpl. auto.
Qed.

Lemma lstrip_where_after_run (p : ascii -> bool) (w y : string) :
  forall_chars p w = true ->
  lstrip_where p (w ++ y) = lstrip_where p y.
Proof.
  induction w as [|c w IH]; [reflexivity|].
  simpl. intros [-> Hw]%andb_prop. auto.
Qed.

Lemma search_after_run (p : ascii -> bool) (a : atom) (r : regex)
    (w y : string) :
  (forall c, p c = true -> atom_match a c = false) ->
  forall_chars p w = true ->
  search ((a, One) :: r) (w ++ y) = search ((a, One) :: r) y.
Proof.
  intros Ha. induction w as [|c w IH]; [reflexivity|].
  simpl (forall_chars _ _). intros [Hc Hw]%andb_prop.
  change (String c w ++ y) with (String c (w ++ y)). cbn [search].
  now rewrite match_here_one, (Ha c Hc), IH.
Qed.

(** No blank is a semicolon, the first character of a forbidden keyword, or
    the first character that an injection pattern asks for. *)
Lemma blank_not_semicolon (c : ascii) :
  is_space c = true -> Ascii.eqb c ";" = false.
Proof. destruct c as [[] [] [] [] [] [] [] []]; intros H; solve [reflexivity | discriminate H]. Qed.

Lemma blank_no_pattern_start (c : ascii) :
  is_space c = true ->
  forallb (fun x => negb (atom_match (AChar x) c))
    [";"; "-"; "/"; "@"; "b"; "s"]%char = true.
Proof. destruct c as [[] [] [] [] [] [] [] []]; intros H; solve [reflexivity | discriminate H]. Qed.

Lemma keyword_first_not_blank (k : string) :
  In k FORBIDDEN_KEYWORDS ->
  exists a k', k = String a k' /\ is_space a = false.
Proof.
  simpl. intros H.
  repeat (destruct H as [<-|H]; [eexists _, _; split; reflexivity|]).
  destruct H.
Qed.

Lemma count_blanks (w : string) :
  forall_chars is_space w = true -> count_char ";" w = 0.
Proof.
  induction w as [|c w IH]; simpl; [reflexivity|].
  intros [Hc Hw]%andb_prop. now rewrite (blank_not_semicolon _ Hc), IH.
Qed.

Lemma re_search_after_run (pattern w y : string) (a : atom) (r : regex) :
  compile pattern = Some ((a, One) :: r) ->
  (forall c, is_space c = true -> atom_match a c = false) ->
  forall_chars is_space w = true ->
  re_search pattern (w ++ y) = re_search pattern y.
Proof.
  intros Hc Ha Hw. unfold re_search. rewrite Hc.
  now apply (search_after_run is_space).
Qed.

Lemma re_search_after_blanks (pattern w y : string) :
  In pattern injection_patterns ->
  forall_chars is_space w = true ->
  re_search pattern (w ++ y) = re_search pattern y.
Proof.
  intros Hp Hw. simpl in Hp.
  assert (Hstart : forall x, In x [";"; "-"; "/"; "@"; "b"; "s"]%char ->
            forall c, is_space c = true -> atom_match (AChar x) c = false).
  { intros x Hx c Hc. pose proof (blank_no_pattern_start c Hc) as Hall.
    rewrite forallb_forall in Hall. specialize (Hall x Hx).
    now apply negb_true_iff in Hall. }
  destruct Hp as [<-|[<-|[<-|[<-|[<-|[<-|[<-|[]]]]]]]];
    (eapply re_search_after_run;
     [reflexivity | apply Hstart; simpl; tauto | exact Hw]).
Qed.

(** X17: blanks before the query do not matter.  In a process whose keyword
    set is the configured one, [validate_query] gives a query and the same
    query preceded by blanks (spaces, tabs, line breaks) the same verdict
    and reason. *)
Theorem verdict_ignores_leading_blanks (kws : list string)
    (blanks query : string) :
  Permutation kws FORBIDDEN_KEYWORDS ->
  forall_chars is_space blanks = true ->
  validate_query kws (blanks ++ query) = validate_query kws query.
Proof.
  intros Hperm Hb.
  assert (Hub : forall_chars is_space (upper blanks) = true)
    by now rewrite blanks_upper.
  unfold validate_query. rewrite upper_app.
  rewrite (first_hit_ext_in
             (fun keyword => contains keyword (upper blanks ++ upper query))
             (fun keyword => contains keyword (upper query))).
  2:{ intros k Hk.
      assert (Hin : In k FORBIDDEN_KEYWORDS).
      { apply list_elem_of_In. rewrite <- Hperm. now apply list_elem_of_In. }
      destruct (keyword_first_not_blank k Hin) as (a & k' & -> & Ha).
      now apply (contains_after_run is_space). }
  unfold strip. rewrite (lstrip_where_after_run is_space _ _ Hub).
  rewrite count_char_app, (count_blanks _ Hb), Nat.add_0_l.
  rewrite (first_hit_ext_in
             (fun pattern => re_search pattern (blanks ++ query))
             (fun pattern => re_search pattern query));
    [reflexivity|].
  intros p Hp. now apply re_search_after_blanks.
Qed.

Lemma verdict_ignores_leading_blanks_witness :
  validate_query FORBIDDEN_KEYWORDS ("   " ++ "SELECT 1; SELECT 2;") =
  validate_query FORBIDDEN_KEYWORDS "SELECT 1; SELECT 2;".
Proof.
  apply (verdict_ignores_leading_blanks FORBIDDEN_KEYWORDS "   "
           "SELECT 1; SELECT 2;" (Permutation_refl _) eq_refl).
Defined.

End LeadingBlanks.
